(** * turborepo-projects-version: a shallow embedding of the action

    The action resolves the Turborepo version from the root package.json
    (turbo.ts), lists the workspace packages with `turbo ls`, reads every
    package's package.json (package.ts) and groups the packages by their
    `build` property (main.ts).

    JavaScript strings are sequences of UTF-16 code units; they are modelled
    as lists of code units.  Exceptions are modelled by an outcome type that
    carries the message of the thrown Error.  The file system, the cache
    service and the subprocess runner are collaborators of the code; a
    [World] record holds what each of them answers. *)

From Stdlib Require Import List NArith Arith Bool Lia String Ascii.
From Stdlib Require Import DecimalString Sorted Permutation.
Import ListNotations.

Set Implicit Arguments.

(* ================================================================= *)
(** ** JavaScript strings and the two regular-expression replaces *)

Module JS.

(** A string value: its UTF-16 code units (numbers below 65536; nothing
    below depends on the bound). *)
Definition JSString := list N.

(** A literal whose characters are all ASCII. *)
Definition js (s : string) : JSString :=
  map N_of_ascii (list_ascii_of_string s).

Arguments js s : simpl never.

Definition unit_eqb (a b : N) : bool := N.eqb a b.

Fixpoint str_eqb (a b : JSString) : bool :=
  match a, b with
  | [], [] => true
  | x :: a', y :: b' => unit_eqb x y && str_eqb a' b'
  | _, _ => false
  end.

Definition str_eq_dec (a b : JSString) : {a = b} + {a <> b} :=
  list_eq_dec N.eq_dec a b.

(** [s.startsWith(p)] and [s.includes(p)]. *)
Fixpoint startsWith (p s : JSString) : bool :=
  match p, s with
  | [], _ => true
  | x :: p', y :: s' => unit_eqb x y && startsWith p' s'
  | _ :: _, [] => false
  end.

Fixpoint includes (p s : JSString) : bool :=
  startsWith p s ||
  match s with
  | [] => false
  | _ :: s' => includes p s'
  end.

(** Truthiness of a string: only the empty string is falsy. *)
Definition truthy (s : JSString) : bool :=
  match s with [] => false | _ :: _ => true end.

(** Code-unit classes.  [\w] is [A-Za-z0-9_]; [\W] is every other code
    unit (the patterns carry neither the [u] nor the [i] flag). *)
Definition isUpper (c : N) : bool := (65 <=? c)%N && (c <=? 90)%N.
Definition isLower (c : N) : bool := (97 <=? c)%N && (c <=? 122)%N.
Definition isDigit (c : N) : bool := (48 <=? c)%N && (c <=? 57)%N.
Definition underscore : N := 95%N.
Definition dash : N := 45%N.

Definition isWord (c : N) : bool :=
  isUpper c || isLower c || isDigit c || N.eqb c underscore.
Definition isNonWord (c : N) : bool := negb (isWord c).
Definition isDash (c : N) : bool := N.eqb c dash.

(** Length of the longest prefix whose code units satisfy [p]: what a
    greedy [p+] consumes from the current index. *)
Fixpoint prefixLen (p : N -> bool) (s : JSString) : nat :=
  match s with
  | c :: r => if p c then S (prefixLen p r) else 0
  | [] => 0
  end.

(** A pattern tried at one index: it sees whether the index is 0 and the
    input from the index on, and answers the length of its match. *)
Definition Pattern := bool -> JSString -> option nat.

(** [/\W+/]: one or more non-word code units, greedy. *)
Definition nonWordRun : Pattern := fun _ s =>
  match prefixLen isNonWord s with
  | 0 => None
  | S k => Some (S k)
  end.

(** [/^-+|-+$/]: dashes at index 0, or else dashes that reach the end of
    the input.  In the second alternative a shorter backtracked match is
    followed by a dash, never by the end, so only the greedy length can
    succeed. *)
Definition edgeDashes : Pattern := fun atStart s =>
  match prefixLen isDash s with
  | 0 => None
  | S k =>
      if atStart then Some (S k)
      else match skipn (S k) s with
           | [] => Some (S k)
           | _ :: _ => None
           end
  end.

(** [s.replace(/pat/g, rep)] for a pattern that never matches the empty
    string.  The scan starts at index 0; where the pattern matches, [rep]
    is emitted and the scan resumes after the match, elsewhere the code
    unit is copied.  [pending] counts the code units of the current match
    that are still to be passed over. *)
Fixpoint replaceScan (pat : Pattern) (rep : JSString)
    (atStart : bool) (pending : nat) (s : JSString) : JSString :=
  match s with
  | [] => []
  | c :: r =>
      match pending with
      | S k => replaceScan pat rep false k r
      | 0 =>
          match pat atStart s with
          | Some (S k) => rep ++ replaceScan pat rep false k r
          | _ => c :: replaceScan pat rep false 0 r
          end
      end
  end.

Definition replaceAll (pat : Pattern) (rep s : JSString) : JSString :=
  replaceScan pat rep true 0 s.

(** [toLowerCase] on a code unit.  Only the ASCII range is modelled: the
    one call site applies it to the output of the first replace, which
    holds word code units and dashes only (lemma [replace_nonword_ascii]
    below), and there the Unicode mapping is A-Z to a-z. *)
Definition lowerUnit (c : N) : N := if isUpper c then (c + 32)%N else c.
Definition toLowerCase (s : JSString) : JSString := map lowerUnit s.

(** Decimal rendering of a length, as a template literal prints it. *)
Definition ofNat (n : nat) : JSString :=
  js (NilZero.string_of_uint (Nat.to_uint n)).

End JS.

Import JS.

(* ================================================================= *)
(** ** The host: errors, logging and the collaborators *)

Module Host.

(** A thrown Error object. *)
Record JSError := { errName : JSString; errMessage : JSString }.

Definition newError (message : JSString) : JSError :=
  {| errName := js "Error"; errMessage := message |}.
Definition typeError (message : JSString) : JSError :=
  {| errName := js "TypeError"; errMessage := message |}.

(** [`${error}`], that is [Error.prototype.toString]. *)
Definition errorToString (e : JSError) : JSString :=
  match errName e, errMessage e with
  | [], m => m
  | n, [] => n
  | n, m => n ++ js ": " ++ m
  end.

Inductive Outcome (A : Type) : Type :=
| Returns (a : A)
| Throws (e : JSError).
Arguments Returns {A} a.
Arguments Throws {A} e.

(** [core.info] and [core.warning] write to the log and do not fail. *)
Inductive LogEntry : Type :=
| Info (message : JSString)
| Warning (message : JSString).

(** A computation: what it logged, and how it ended. *)
Definition Action (A : Type) : Type := (list LogEntry * Outcome A)%type.

Definition ret {A} (a : A) : Action A := ([], Returns a).
Definition throw {A} (e : JSError) : Action A := ([], Throws e).
Definition lift {A} (o : Outcome A) : Action A := ([], o).
Definition info (message : JSString) : Action unit := ([Info message], Returns tt).
Definition warning (message : JSString) : Action unit :=
  ([Warning message], Returns tt).

Definition bind {A B} (m : Action A) (k : A -> Action B) : Action B :=
  match m with
  | (l, Returns a) => let (l', o) := k a in (l ++ l', o)
  | (l, Throws e) => (l, Throws e)
  end.

(** [try { m } catch (e) { handler e }] *)
Definition tryCatch {A} (m : Action A) (handler : JSError -> Action A) : Action A :=
  match m with
  | (l, Returns a) => (l, Returns a)
  | (l, Throws e) => let (l', o) := handler e in (l ++ l', o)
  end.

Definition logOf {A} (m : Action A) : list LogEntry := fst m.
Definition outcomeOf {A} (m : Action A) : Outcome A := snd m.

Declare Scope action_scope.
Delimit Scope action_scope with action.
Notation "x <- m ;; k" := (bind m (fun x => k))
  (at level 61, m at next level, right associativity) : action_scope.
Notation "m ;; k" := (bind m (fun _ => k))
  (at level 61, right associativity) : action_scope.

(** What [existsSync] + [readFileSync] + [JSON.parse] give for one file.
    [Unreadable] is a file that cannot be read or whose text is not JSON.
    For the package.json of a package, whose documents are the typed
    records of [PackageJson], it also stands for the documents outside
    that type on which the reads inside the [try] of [getPackageInfo]
    throw: the document [null], a [name] that is neither a string nor
    absent.  For the root package.json the document [null] is a document
    of its own, [NullDocument] below. *)
Inductive FileRead (A : Type) : Type :=
| Missing
| Unreadable
| Parsed (doc : A).
Arguments Missing {A}.
Arguments Unreadable {A}.
Arguments Parsed {A} doc.

(** The root package.json: its two dependency maps, name to version (the
    entry that is read is a string, as the cast of the returned value to
    [string | undefined] has it). *)
Definition Dependencies := list (JSString * JSString).
Record RootPackageJson := {
  devDependencies : option Dependencies;
  dependencies : option Dependencies
}.

(** What the root package.json parses to: [null], on which a property
    read throws, or any other document (one that is not an object has no
    dependency maps). *)
Inductive RootDocument : Type :=
| NullDocument
| ObjectDocument (doc : RootPackageJson).

(** The [build] property: [string | string[]]. *)
Inductive Build : Type :=
| Single (label : JSString)
| Many (labels : list JSString).

(** A package's package.json: the three properties that are read, with
    the types their declarations in [getPackageInfo] give them. *)
Record PackageJson := {
  pjVersion : option JSString;
  pjName : option JSString;
  pjBuild : option Build
}.

(** One item of [packages.items] in the output of [turbo ls]. *)
Record WorkspacePackage := { itemName : JSString; itemPath : JSString }.

Record ExecOutput := {
  exitCode : N;
  stdout : JSString;
  stderr : JSString
}.

Record World := {
  (** package.json in the working directory *)
  rootPackageJson : FileRead RootDocument;
  (** [resolve(packagePath, 'package.json')] *)
  resolvePackageJson : JSString -> JSString;
  (** the package.json files of the workspace, by resolved path *)
  packageJsonAt : JSString -> FileRead PackageJson;
  (** [process.platform], [process.arch] *)
  platform : JSString;
  arch : JSString;
  (** [cache.restoreCache([npxCachePath], key)]: the key that hit, if any *)
  restoreCache : JSString -> Outcome (option JSString);
  (** [cache.saveCache([npxCachePath], key)] *)
  saveCache : JSString -> Outcome unit;
  (** [getExecOutput('npx', args, { silent: true })] *)
  getExecOutput : list JSString -> Outcome ExecOutput;
  (** [JSON.parse(text).packages.items]; [None] when the parse or the
      reads of the items throw *)
  parseItems : JSString -> option (list WorkspacePackage)
}.

(** The error of a failed read or parse; its text is never observed. *)
Definition readFailure : JSError :=
  {| errName := js "SyntaxError"; errMessage := js "Unexpected token" |}.

Definition existsSync {A} (file : FileRead A) : bool :=
  match file with Missing => false | _ => true end.

(** [JSON.parse(readFileSync(file, 'utf8'))] *)
Definition readJson {A} (file : FileRead A) : Outcome A :=
  match file with
  | Parsed doc => Returns doc
  | _ => Throws readFailure
  end.

End Host.

Import Host.
Local Open Scope action_scope.

(* ================================================================= *)
(** ** package.ts *)

Module Package.

Record ProjectInfo := {
  path : JSString;
  version : option JSString;
  name : option JSString;
  identifier : option JSString;
  build : option Build
}.

(** [packageName.replace(/\W+/g, '-').toLowerCase().replace(/^-+|-+$/g, '')] *)
Definition identifierOf (packageName : JSString) : JSString :=
  replaceAll edgeDashes [] (toLowerCase (replaceAll nonWordRun [dash] packageName)).

Definition crossMark : JSString := [10060%N].

Definition getPackageInfo (w : World) (packagePath : JSString)
  : Action (option ProjectInfo) :=
  let packageJsonPath := resolvePackageJson w packagePath in
  if negb (existsSync (packageJsonAt w packageJsonPath)) then
    warning (js "  " ++ crossMark ++ js " No package.json found in " ++ packagePath) ;;
    ret None
  else
    tryCatch
      (packageJson <- lift (readJson (packageJsonAt w packageJsonPath)) ;;
       let version := pjVersion packageJson in
       let packageName := pjName packageJson in
       let identifier := option_map identifierOf packageName in
       let build := pjBuild packageJson in
       ret (Some {| path := packagePath;
                    name := packageName;
                    version := version;
                    identifier := identifier;
                    build := build |}))
      (fun _ => throw (newError
         (js "Failed to retrieve package info: " ++ packageJsonPath))).

End Package.

Import Package.

(* ================================================================= *)
(** ** turbo.ts *)

Module Turbo.

Definition turbo : JSString := js "turbo".

(** [deps?.turbo] on a dependency map that may be absent. *)
Fixpoint lookupDep (key : JSString) (deps : Dependencies) : option JSString :=
  match deps with
  | [] => None
  | (k, v) :: rest => if str_eqb k key then Some v else lookupDep key rest
  end.

Definition optTurbo (deps : option Dependencies) : option JSString :=
  match deps with
  | Some d => lookupDep turbo d
  | None => None
  end.

(** [a || b] on [string | undefined]. *)
Definition orElse (a b : option JSString) : option JSString :=
  match a with
  | Some s => if truthy s then a else b
  | None => b
  end.

(** [packageJson.devDependencies?.turbo || packageJson.dependencies?.turbo]:
    the read of [devDependencies] throws on [null]. *)
Definition readTurbo (packageJson : RootDocument) : Outcome (option JSString) :=
  match packageJson with
  | NullDocument =>
      Throws (typeError
                (js "Cannot read properties of null (reading 'devDependencies')"))
  | ObjectDocument doc =>
      Returns (orElse (optTurbo (devDependencies doc))
                      (optTurbo (dependencies doc)))
  end.

Definition getTurboVersion (w : World) : Action (option JSString) :=
  tryCatch
    (if negb (existsSync (rootPackageJson w)) then ret None
     else
       packageJson <- lift (readJson (rootPackageJson w)) ;;
       lift (readTurbo packageJson))
    (fun _ => throw (newError (js "Failed to fetch package.json in repo root folder"))).

Definition magnifier : JSString := [55357; 56589]%N.
Definition checkMark : JSString := [9989]%N.
Definition inboxTray : JSString := [55357; 56549]%N.
Definition downArrow : JSString := [11015; 65039]%N.
Definition floppy : JSString := [55357; 56510]%N.
Definition rocket : JSString := [55357; 56960]%N.

Definition atVersion (turboVersion : JSString) : JSString :=
  js "turbo@" ++ turboVersion.

(** [`npx-turbo-${turboVersion}-${process.platform}-${process.arch}`] *)
Definition cacheKeyOf (w : World) (turboVersion : JSString) : JSString :=
  js "npx-turbo-" ++ turboVersion ++ js "-" ++ platform w ++ js "-" ++ arch w.

Definition ensureTurboCache (w : World) (turboVersion : JSString) : Action unit :=
  let cacheKey := cacheKeyOf w turboVersion in
  info (magnifier ++ js " Looking for cached " ++ atVersion turboVersion
          ++ js " in npx cache...") ;;
  (* the first try block; [true] stands for its early return *)
  returned <-
    tryCatch
      (cacheHit <- lift (restoreCache w cacheKey) ;;
       match cacheHit with
       | Some (_ :: _) =>
           info (checkMark ++ js " Restored npx cache for " ++ atVersion turboVersion) ;;
           ret true
       | _ => ret false
       end)
      (fun error =>
         warning (js "Cache restore failed: " ++ errorToString error) ;;
         ret false) ;;
  if returned : bool then ret tt
  else
    info (inboxTray ++ js " No cache found, " ++ atVersion turboVersion
            ++ js " will be downloaded on first use") ;;
    tryCatch
      (info (downArrow ++ js " Pre-downloading " ++ atVersion turboVersion
               ++ js " to populate cache...") ;;
       downloadOutput <- lift (getExecOutput w [atVersion turboVersion; js "--version"]) ;;
       if (exitCode downloadOutput =? 0)%N then
         info (checkMark ++ js " " ++ atVersion turboVersion
                 ++ js " downloaded successfully") ;;
         tryCatch
           (lift (saveCache w cacheKey) ;;
            info (floppy ++ js " Cached npx " ++ atVersion turboVersion
                    ++ js " for future runs"))
           (fun error => warning (js "Failed to save cache: " ++ errorToString error))
       else ret tt)
      (fun error => warning (js "Failed to pre-download turbo: " ++ errorToString error)).

(** [text.match(/\{[\s\S]*\}/)]: from the first opening brace to the last
    closing brace after it. *)
Definition openBrace : N := 123%N.
Definition closeBrace : N := 125%N.

Fixpoint throughLastClose (s : JSString) : option JSString :=
  match s with
  | [] => None
  | c :: r =>
      match throughLastClose r with
      | Some t => Some (c :: t)
      | None => if N.eqb c closeBrace then Some [c] else None
      end
  end.

Fixpoint matchBraces (s : JSString) : option JSString :=
  match s with
  | [] => None
  | c :: r =>
      if N.eqb c openBrace then option_map (cons c) (throughLastClose r)
      else matchBraces r
  end.

(** [items.map((item) => item.name).join(', ')] *)
Fixpoint join (sep : JSString) (parts : list JSString) : JSString :=
  match parts with
  | [] => []
  | [p] => p
  | p :: rest => p ++ sep ++ join sep rest
  end.

Definition foundMessage (items : list WorkspacePackage) : JSString :=
  rocket ++ js " Found " ++ ofNat (List.length items) ++ js " turbo package(s): "
    ++ join (js ", ") (map itemName items).

Definition getTurboPackages (w : World) : Action (list WorkspacePackage) :=
  turboVersion <- getTurboVersion w ;;
  match turboVersion with
  | Some ((_ :: _) as turboVersion) =>
      info (rocket ++ js " Resolved Turborepo: " ++ turboVersion) ;;
      ensureTurboCache w turboVersion ;;
      tryCatch
        (output <- lift (getExecOutput w
                           [atVersion turboVersion; js "ls"; js "--output=json"]) ;;
         if negb (exitCode output =? 0)%N then
           throw (newError (js "Failed to get turbo packages: " ++ stderr output))
         else
           match matchBraces (stdout output) with
           | None => throw (newError (js "Turbo output is not valid JSON"))
           | Some json =>
               items <- lift (match parseItems w json with
                              | Some items => Returns items
                              | None => Throws readFailure
                              end) ;;
               info (foundMessage items) ;;
               ret items
           end)
        (fun _ => throw (newError (js "Failed to retrieve turbo packages")))
  | _ => throw (newError (js "Repo does not have Turborepo installed"))
  end.

End Turbo.

Import Turbo.

(** Names for the collaborator calls and the errors of turbo.ts. *)
Module Calls.

(** The error of the [catch] in [getTurboVersion]. *)
Definition rootFailure : JSError :=
  newError (js "Failed to fetch package.json in repo root folder").

(** The error of the [catch] in [getTurboPackages]. *)
Definition retrievalFailure : JSError :=
  newError (js "Failed to retrieve turbo packages").

(** The restore found the cache. *)
Definition restoreHit (w : World) (turboVersion : JSString) : bool :=
  match restoreCache w (cacheKeyOf w turboVersion) with
  | Returns (Some (_ :: _)) => true
  | _ => false
  end.

(** The two subprocess calls. *)
Definition preDownload (w : World) (turboVersion : JSString) : Outcome ExecOutput :=
  getExecOutput w [atVersion turboVersion; js "--version"].

Definition listPackages (w : World) (turboVersion : JSString) : Outcome ExecOutput :=
  getExecOutput w [atVersion turboVersion; js "ls"; js "--output=json"].

End Calls.

Import Calls.

(* ================================================================= *)
(** ** main.ts *)

Module Main.

(** [TurboProjects]: the own properties of the result object, in the order
    of their creation.  The object is created by [{}], so reads of a key it
    does not own fall through to [Object.prototype]. *)
Definition TurboProjects := list (JSString * list ProjectInfo).

Definition objectPrototypeKeys : list JSString :=
  map js ["constructor"; "__defineGetter__"; "__defineSetter__";
          "hasOwnProperty"; "__lookupGetter__"; "__lookupSetter__";
          "isPrototypeOf"; "propertyIsEnumerable"; "toString"; "valueOf";
          "__proto__"; "toLocaleString"]%string.

Definition isPrototypeKey (key : JSString) : bool :=
  existsb (str_eqb key) objectPrototypeKeys.

Fixpoint getOwn (key : JSString) (o : TurboProjects) : option (list ProjectInfo) :=
  match o with
  | [] => None
  | (k, v) :: rest => if str_eqb k key then Some v else getOwn key rest
  end.

(** What [result[key]] reads. *)
Inductive Slot : Type :=
| Undefined
| Group (projects : list ProjectInfo)
| Inherited.

Definition get (o : TurboProjects) (key : JSString) : Slot :=
  match getOwn key o with
  | Some v => Group v
  | None => if isPrototypeKey key then Inherited else Undefined
  end.

(** Writing an own property: in place when the key is owned, else created
    after the existing ones. *)
Fixpoint setOwn (key : JSString) (v : list ProjectInfo) (o : TurboProjects)
  : TurboProjects :=
  match o with
  | [] => [(key, v)]
  | (k, v') :: rest =>
      if str_eqb k key then (k, v) :: rest else (k, v') :: setOwn key v rest
  end.

(** [if (!result[build]) result[build] = []; result[build].push(packageInfo)]
    Arrays and the inherited members are truthy; only arrays have [push]. *)
Definition addToGroup (notAFunction : JSString) (result : TurboProjects)
    (build : JSString) (packageInfo : ProjectInfo) : Outcome TurboProjects :=
  let result :=
    match get result build with
    | Undefined => setOwn build [] result
    | _ => result
    end in
  match get result build with
  | Group projects => Returns (setOwn build (projects ++ [packageInfo]) result)
  | _ => Throws (typeError notAFunction)
  end.

(** [for (const build of packageInfo.build) { ... }] *)
Fixpoint addToGroups (result : TurboProjects) (builds : list JSString)
    (packageInfo : ProjectInfo) : Outcome TurboProjects :=
  match builds with
  | [] => Returns result
  | build :: rest =>
      match addToGroup (js "result[build].push is not a function")
                       result build packageInfo with
      | Returns result' => addToGroups result' rest packageInfo
      | Throws e => Throws e
      end
  end.

(** The body of [for (const pkg of packages)]. *)
Definition visit (w : World) (result : TurboProjects) (pkg : WorkspacePackage)
  : Action TurboProjects :=
  packageInfo <- getPackageInfo w (itemPath pkg) ;;
  match packageInfo with
  | None => ret result
  | Some packageInfo =>
      match build packageInfo with
      | Some (Many builds) => lift (addToGroups result builds packageInfo)
      | Some (Single label) =>
          if truthy label then
            lift (addToGroup (js "result[packageInfo.build].push is not a function")
                             result label packageInfo)
          else ret result
      | None => ret result
      end
  end.

Fixpoint forEachPackage (w : World) (result : TurboProjects)
    (packages : list WorkspacePackage) : Action TurboProjects :=
  match packages with
  | [] => ret result
  | pkg :: rest =>
      result' <- visit w result pkg ;;
      forEachPackage w result' rest
  end.

(** Own keys in the order [Object.keys], [Object.entries] and
    [JSON.stringify] enumerate them: array indices (canonical decimals
    below 2^32 - 1) in ascending order, then the other keys in creation
    order. *)
Fixpoint decimalValue (acc : N) (s : JSString) : option N :=
  match s with
  | [] => Some acc
  | c :: r => if isDigit c then decimalValue (acc * 10 + (c - 48))%N r else None
  end.

Definition arrayIndex (key : JSString) : option N :=
  match key with
  | [] => None
  | c :: r =>
      if N.eqb c 48 && truthy r then None
      else match decimalValue 0 key with
           | Some n => if (n <? 4294967295)%N then Some n else None
           | None => None
           end
  end.

Definition isArrayIndex (key : JSString) : bool :=
  match arrayIndex key with Some _ => true | None => false end.

Fixpoint insertByIndex (x : N * JSString) (l : list (N * JSString))
  : list (N * JSString) :=
  match l with
  | [] => [x]
  | y :: r => if (fst x <=? fst y)%N then x :: l else y :: insertByIndex x r
  end.

Definition sortByIndex (l : list (N * JSString)) : list (N * JSString) :=
  fold_right insertByIndex [] l.

Definition indexed (keys : list JSString) : list (N * JSString) :=
  flat_map (fun k => match arrayIndex k with
                     | Some n => [(n, k)]
                     | None => []
                     end) keys.

Definition keyOrder (created : list JSString) : list JSString :=
  map snd (sortByIndex (indexed created))
    ++ filter (fun k => negb (isArrayIndex k)) created.

Definition keys (o : TurboProjects) : list JSString := keyOrder (map fst o).

Definition groupOf (o : TurboProjects) (key : JSString) : list ProjectInfo :=
  match getOwn key o with Some v => v | None => [] end.

Definition entries (o : TurboProjects) : list (JSString * list ProjectInfo) :=
  map (fun k => (k, groupOf o k)) (keys o).

Definition warningSign : JSString := [9888; 65039]%N.
Definition greenCircle : JSString := [55357; 57314]%N.
Definition yellowCircle : JSString := [55357; 57313]%N.

(** [value || 'N/A'] *)
Definition orNA (value : option JSString) : JSString :=
  match value with
  | Some (c :: r) => c :: r
  | _ => js "N/A"
  end.

Fixpoint forEach {A} (body : A -> Action unit) (l : list A) : Action unit :=
  match l with
  | [] => ret tt
  | x :: rest => body x ;; forEach body rest
  end.

Definition logProject (project : ProjectInfo) : Action unit :=
  info (yellowCircle ++ js " " ++ orNA (name project) ++ js "@"
          ++ orNA (version project) ++ js ": " ++ path project
          ++ js " (" ++ orNA (identifier project) ++ js ")").

Definition logGroup (entry : JSString * list ProjectInfo) : Action unit :=
  info (greenCircle ++ js " " ++ fst entry) ;;
  forEach logProject (snd entry) ;;
  info (js " ").

Definition projectCount (o : TurboProjects) : nat :=
  fold_left (fun acc projects => acc + List.length (snd projects)) (entries o) 0.

Definition getProjects (w : World) : Action TurboProjects :=
  tryCatch
    (packages <- getTurboPackages w ;;
     info (foundMessage packages) ;;
     result <- forEachPackage w [] packages ;;
     if Nat.eqb (List.length (keys result)) 0 then
       info (warningSign ++ js " Nothing to build") ;;
       ret result
     else
       info (js " ") ;;
       forEach logGroup (entries result) ;;
       info (rocket ++ js " Done: " ++ ofNat (List.length (keys result))
               ++ js " build target(s), " ++ ofNat (projectCount result)
               ++ js " project(s)") ;;
       ret result)
    (fun error => throw (newError (js "Analysis failed: " ++ errMessage error))).

(** What [run] hands to the workflow: [core.setOutput('projects', ...)] with
    the entries that [JSON.stringify(result)] serialises, in their order,
    or [core.setFailed] with a message. *)
Inductive Report : Type :=
| SetOutput (projects : list (JSString * list ProjectInfo))
| SetFailed (message : JSString).

Definition run (w : World) : list LogEntry * Report :=
  match getProjects w with
  | (l, Returns result) => (l, SetOutput (entries result))
  | (l, Throws error) =>
      (l, SetFailed (crossMark ++ js " Action failed: " ++ errMessage error))
  end.

End Main.

Import Main.

(* ================================================================= *)
(** ** The identifier as the specification words it *)

Module Spec.

(** The maximal runs of a string: consecutive code units of one class
    (word or non-word), in order. *)
Fixpoint runs (s : JSString) : list JSString :=
  match s with
  | [] => []
  | c :: r =>
      match runs r with
      | (d :: run) :: rest =>
          if Bool.eqb (isWord c) (isWord d) then (c :: d :: run) :: rest
          else [c] :: (d :: run) :: rest
      | _ => [[c]]
      end
  end.

(** A run of non-word code units becomes one dash; a run of word code
    units stays. *)
Definition replaceRun (run : JSString) : JSString :=
  match run with
  | [] => []
  | c :: _ => if isWord c then run else [dash]
  end.

Fixpoint dropWhile (p : N -> bool) (s : JSString) : JSString :=
  match s with
  | [] => []
  | c :: r => if p c then dropWhile p r else s
  end.

Fixpoint dropWhileEnd (p : N -> bool) (s : JSString) : JSString :=
  match s with
  | [] => []
  | c :: r =>
      match dropWhileEnd p r with
      | [] => if p c then [] else [c]
      | t => c :: t
      end
  end.

(** Replace every maximal run of non-word characters by one dash, convert
    to lowercase, strip the leading and the trailing dashes. *)
Definition normalize (s : JSString) : JSString :=
  dropWhileEnd isDash (dropWhile isDash (toLowerCase (flat_map replaceRun (runs s)))).

End Spec.

(* ================================================================= *)
(** ** What the grouping loop is expected to build *)

Module Grouping.

(** The record [getPackageInfo] returns for a package.json that parses. *)
Definition infoOf (packagePath : JSString) (doc : PackageJson) : ProjectInfo :=
  {| path := packagePath;
     name := pjName doc;
     version := pjVersion doc;
     identifier := option_map identifierOf (pjName doc);
     build := pjBuild doc |}.

Definition infoAt (w : World) (packagePath : JSString) : option ProjectInfo :=
  match packageJsonAt w (resolvePackageJson w packagePath) with
  | Parsed doc => Some (infoOf packagePath doc)
  | _ => None
  end.

(** The labels a [build] value files its package under, in order. *)
Definition labelsOf (b : option Build) : list JSString :=
  match b with
  | Some (Single label) => if truthy label then [label] else []
  | Some (Many labels) => labels
  | None => []
  end.

(** A [build] value that is present and neither the empty string nor the
    empty array. *)
Definition nonEmptyBuild (b : option Build) : Prop :=
  match b with
  | Some (Single (_ :: _)) => True
  | Some (Many (_ :: _)) => True
  | _ => False
  end.

(** The (label, project) pairs of one package, then of the whole listing,
    in discovery order. *)
Definition placementsOf (w : World) (pkg : WorkspacePackage)
  : list (JSString * ProjectInfo) :=
  match infoAt w (itemPath pkg) with
  | Some i => map (fun label => (label, i)) (labelsOf (build i))
  | None => []
  end.

Definition placements (w : World) (packages : list WorkspacePackage)
  : list (JSString * ProjectInfo) :=
  flat_map (placementsOf w) packages.

(** The projects placed under one label, in order. *)
Definition carrying (label : JSString) (ps : list (JSString * ProjectInfo))
  : list ProjectInfo :=
  map snd (filter (fun p => str_eqb (fst p) label) ps).

(** The labels of a sequence in the order of their first occurrence. *)
Fixpoint firstSeen (labels : list JSString) : list JSString :=
  match labels with
  | [] => []
  | l :: rest => l :: filter (fun k => negb (str_eqb l k)) (firstSeen rest)
  end.

Definition encounterOrder (w : World) (packages : list WorkspacePackage)
  : list JSString :=
  firstSeen (map fst (placements w packages)).

(** The package.json of a listed package is absent, or has no [build]. *)
Definition lacksBuild (w : World) (pkg : WorkspacePackage) : Prop :=
  match packageJsonAt w (resolvePackageJson w (itemPath pkg)) with
  | Missing => True
  | Unreadable => False
  | Parsed doc => pjBuild doc = None
  end.

(** Index keys are listed in ascending order of their index. *)
Definition ascending (l : list (N * JSString)) : Prop :=
  Sorted (fun a b => (fst a <= fst b)%N) l.

(** A label not yet among the keys is added after them. *)
Definition extend (ks : list JSString) (l : JSString) : list JSString :=
  if existsb (str_eqb l) ks then ks else ks ++ [l].

(** The label is not among the keys. *)
Definition fresh (ks : list JSString) (l : JSString) : bool :=
  negb (existsb (str_eqb l) ks).

(** One push: the group of [l] gains [i] at its end, created if need be. *)
Definition place (o : TurboProjects) (l : JSString) (i : ProjectInfo) : TurboProjects :=
  setOwn l (groupOf o l ++ [i]) o.

Definition placeAll (o : TurboProjects) (ps : list (JSString * ProjectInfo))
  : TurboProjects :=
  fold_left (fun o p => place o (fst p) (snd p)) ps o.

Definition info_eq_dec (a b : ProjectInfo) : {a = b} + {a <> b}.
Proof.
  repeat decide equality; apply N.eq_dec.
Defined.

(** How often a project occurs in a group, a path in the listing. *)
Definition occurrences (i : ProjectInfo) (g : list ProjectInfo) : nat :=
  count_occ info_eq_dec g i.

Definition listed (p : JSString) (packages : list WorkspacePackage) : nat :=
  count_occ str_eq_dec (map itemPath packages) p.

End Grouping.

Import Spec Grouping.

(* ================================================================= *)
(** ** Shapes of normalized strings *)

Module Shape.

Definition isLowWord (c : N) : bool :=
  isLower c || isDigit c || N.eqb c underscore.

(** Every code unit is a dash or satisfies [ok]; a dash is followed by a
    code unit that satisfies [ok], or by the end when [endOk] allows it. *)
Fixpoint separated (ok : N -> bool) (endOk : bool) (s : JSString) : bool :=
  match s with
  | [] => true
  | c :: r =>
      (if isDash c then match r with d :: _ => ok d | [] => endOk end else ok c)
      && separated ok endOk r
  end.

Definition startsWithDash (s : JSString) : bool :=
  match s with c :: _ => isDash c | [] => false end.

(** Lowercase word characters in groups, single dashes strictly between. *)
Definition canonical (s : JSString) : bool :=
  separated isLowWord false s && negb (startsWithDash s).

End Shape.

Import Shape.

(* ================================================================= *)
(** ** Sample workspaces *)

Module Examples.

Definition item (n p : string) : WorkspacePackage :=
  {| itemName := js n; itemPath := js p |}.

Definition doc (n : string) (b : option Build) : PackageJson :=
  {| pjVersion := None; pjName := Some (js n); pjBuild := b |}.

Definition manifest (n : string) (b : option Build) : FileRead PackageJson :=
  Parsed (doc n b).

Fixpoint fileAt (files : list (JSString * FileRead PackageJson)) (p : JSString)
  : FileRead PackageJson :=
  match files with
  | [] => Missing
  | (k, f) :: rest => if str_eqb k p then f else fileAt rest p
  end.

Definition exited (code : N) (out err : string) : Outcome ExecOutput :=
  Returns {| exitCode := code; stdout := js out; stderr := js err |}.

(** A repository that pins turbo 2.5.8 as a development dependency, with
    an empty cache; [ls] is what [turbo ls] does, [items] what its JSON
    lists and [files] the package.json files by resolved path. *)
Definition workspace (ls : Outcome ExecOutput) (items : list WorkspacePackage)
    (files : list (JSString * FileRead PackageJson)) : World :=
  {| rootPackageJson :=
       Parsed (ObjectDocument
                 {| devDependencies := Some [(js "turbo", js "2.5.8")];
                    dependencies := None |});
     resolvePackageJson := fun p => p ++ js "/package.json";
     packageJsonAt := fileAt files;
     platform := js "linux";
     arch := js "x64";
     restoreCache := fun _ => Returns None;
     saveCache := fun _ => Returns tt;
     getExecOutput := fun args =>
       match args with
       | [_; _] => exited 0 "2.5.8" ""
       | _ => ls
       end;
     parseItems := fun _ => Some items |}.

Definition listing : Outcome ExecOutput := exited 0 "{}" "".

(** Scenario 2: [turbo ls] exits with code 1 and "boom" on its error stream. *)
Definition boom : World := workspace (exited 1 "" "boom") [] [].

(** The same failure as the runner reports it when it rejects on a
    non-zero exit code instead of returning it. *)
Definition boomRejected : World :=
  workspace (Throws (newError (js "The process 'npx' failed with exit code 1")))
    [] [].

(** Scenario 4 with a third package that has no package.json. *)
Definition dockerOnlyPackages : list WorkspacePackage :=
  [item "@x/a" "./a"; item "@x/b" "./b"; item "@x/c" "./c"].

Definition dockerOnly : World :=
  workspace listing dockerOnlyPackages
    [(js "./a/package.json", manifest "@x/a" (Some (Single (js "docker"))));
     (js "./b/package.json", manifest "@x/b" None)].

Definition dockerOnlyResult : TurboProjects :=
  [(js "docker", [infoOf (js "./a") (doc "@x/a" (Some (Single (js "docker"))))])].

(** Scenario 5. *)
Definition fanOutPackages : list WorkspacePackage := [item "@My/Lib!!" "./lib"].

Definition fanOutDoc : PackageJson :=
  doc "@My/Lib!!" (Some (Many [js "npm"; js "docker"])).

Definition fanOut : World :=
  workspace listing fanOutPackages [(js "./lib/package.json", Parsed fanOutDoc)].

Definition fanOutResult : TurboProjects :=
  [(js "npm", [infoOf (js "./lib") fanOutDoc]);
   (js "docker", [infoOf (js "./lib") fanOutDoc])].

(** A package that names one label twice. *)
Definition twicePackages : list WorkspacePackage := [item "@x/a" "./a"].

Definition twiceDoc : PackageJson := doc "@x/a" (Some (Many [js "a"; js "a"])).

Definition twice : World :=
  workspace listing twicePackages [(js "./a/package.json", Parsed twiceDoc)].

Definition twiceResult : TurboProjects :=
  [(js "a", [infoOf (js "./a") twiceDoc; infoOf (js "./a") twiceDoc])].

(** Label "b" is met first, label "1" second. *)
Definition numberedPackages : list WorkspacePackage :=
  [item "@x/a" "./a"; item "@x/b" "./b"].

Definition numbered : World :=
  workspace listing numberedPackages
    [(js "./a/package.json", manifest "@x/a" (Some (Single (js "b"))));
     (js "./b/package.json", manifest "@x/b" (Some (Single (js "1"))))].

Definition numberedResult : TurboProjects :=
  [(js "b", [infoOf (js "./a") (doc "@x/a" (Some (Single (js "b"))))]);
   (js "1", [infoOf (js "./b") (doc "@x/b" (Some (Single (js "1"))))])].

(** A package whose label is the name of a member of [Object.prototype]. *)
Definition inheritedLabel : World :=
  workspace listing
    [item "@x/a" "./a"]
    [(js "./a/package.json", manifest "@x/a" (Some (Single (js "constructor"))))].

(** A root package.json whose development entry for turbo is the empty
    string while the runtime entry is a version. *)
Definition emptyDevEntry : World :=
  {| rootPackageJson :=
       Parsed (ObjectDocument
                 {| devDependencies := Some [(js "turbo", js "")];
                    dependencies := Some [(js "turbo", js "2.5.8")] |});
     resolvePackageJson := fun p => p;
     packageJsonAt := fun _ => Missing;
     platform := js "linux";
     arch := js "x64";
     restoreCache := fun _ => Returns None;
     saveCache := fun _ => Returns tt;
     getExecOutput := fun _ => listing;
     parseItems := fun _ => Some [] |}.

(** Every collaborator of the cache warm-up throws. *)
Definition failing (message : string) : JSError := newError (js message).

Definition brokenCache : World :=
  {| rootPackageJson := Missing;
     resolvePackageJson := fun p => p;
     packageJsonAt := fun _ => Missing;
     platform := js "linux";
     arch := js "x64";
     restoreCache := fun _ => Throws (failing "restore");
     saveCache := fun _ => Throws (failing "save");
     getExecOutput := fun _ => Throws (failing "spawn");
     parseItems := fun _ => None |}.

End Examples.

(* ================================================================= *)
(** ** turbo.ts, the revision without the cache *)

Module Legacy.

(** [getTurboPackages] as the second copy of turbo.ts has it: the same
    function without the call of [ensureTurboCache]. *)
Definition getTurboPackages (w : World) : Action (list WorkspacePackage) :=
  turboVersion <- getTurboVersion w ;;
  match turboVersion with
  | Some ((_ :: _) as turboVersion) =>
      info (rocket ++ js " Resolved Turborepo: " ++ turboVersion) ;;
      tryCatch
        (output <- lift (getExecOutput w
                           [atVersion turboVersion; js "ls"; js "--output=json"]) ;;
         if negb (exitCode output =? 0)%N then
           throw (newError (js "Failed to get turbo packages: " ++ stderr output))
         else
           match matchBraces (stdout output) with
           | None => throw (newError (js "Turbo output is not valid JSON"))
           | Some json =>
               items <- lift (match parseItems w json with
                              | Some items => Returns items
                              | None => Throws readFailure
                              end) ;;
               info (foundMessage items) ;;
               ret items
           end)
        (fun _ => throw (newError (js "Failed to retrieve turbo packages")))
  | _ => throw (newError (js "Repo does not have Turborepo installed"))
  end.

End Legacy.

(* ================================================================= *)
(** ** Worlds that differ in one collaborator *)

Module Variation.

Definition withSaveCache (f : JSString -> Outcome unit) (w : World) : World :=
  {| rootPackageJson := rootPackageJson w;
     resolvePackageJson := resolvePackageJson w;
     packageJsonAt := packageJsonAt w;
     platform := platform w;
     arch := arch w;
     restoreCache := restoreCache w;
     saveCache := f;
     getExecOutput := getExecOutput w;
     parseItems := parseItems w |}.

Definition withGetExecOutput (g : list JSString -> Outcome ExecOutput) (w : World)
  : World :=
  {| rootPackageJson := rootPackageJson w;
     resolvePackageJson := resolvePackageJson w;
     packageJsonAt := packageJsonAt w;
     platform := platform w;
     arch := arch w;
     restoreCache := restoreCache w;
     saveCache := saveCache w;
     getExecOutput := g;
     parseItems := parseItems w |}.

Definition withRestoreCache (r : JSString -> Outcome (option JSString)) (w : World)
  : World :=
  {| rootPackageJson := rootPackageJson w;
     resolvePackageJson := resolvePackageJson w;
     packageJsonAt := packageJsonAt w;
     platform := platform w;
     arch := arch w;
     restoreCache := r;
     saveCache := saveCache w;
     getExecOutput := getExecOutput w;
     parseItems := parseItems w |}.

End Variation.

Import Variation.

(* ================================================================= *)
(** ** What is observed of identifiers, logs and mappings *)

Module Observed.

(** A code unit an identifier is made of: [a-z0-9_] or the dash. *)
Definition isIdentifierUnit (c : N) : bool := isLowWord c || isDash c.

Definition endsWithDash (s : JSString) : bool := startsWithDash (rev s).

(** Two dashes side by side somewhere in the string. *)
Fixpoint adjacentDashes (s : JSString) : bool :=
  match s with
  | c :: r =>
      (isDash c && startsWithDash r) || adjacentDashes r
  | [] => false
  end.

(** The warning of [getPackageInfo] for a package without package.json. *)
Definition missingWarning (packagePath : JSString) : LogEntry :=
  Warning (js "  " ++ crossMark ++ js " No package.json found in " ++ packagePath).

(** The error of [getPackageInfo] for a package.json that does not parse,
    as [getProjects] rethrows it. *)
Definition manifestFailure (w : World) (packagePath : JSString) : JSError :=
  newError (js "Analysis failed: Failed to retrieve package info: "
              ++ resolvePackageJson w packagePath).

(** The three messages of [ensureTurboCache] on a restored cache and of
    [getProjects] on an empty mapping. *)
Definition lookingMessage (turboVersion : JSString) : LogEntry :=
  Info (magnifier ++ js " Looking for cached " ++ atVersion turboVersion
          ++ js " in npx cache...").

Definition restoredMessage (turboVersion : JSString) : LogEntry :=
  Info (checkMark ++ js " Restored npx cache for " ++ atVersion turboVersion).

Definition nothingToBuild : LogEntry :=
  Info (warningSign ++ js " Nothing to build").

(** The number of projects over all own groups of a mapping. *)
Definition ownCount (o : TurboProjects) : nat :=
  fold_right (fun p n => List.length (snd p) + n) 0 o.

(** An opening brace with a closing brace somewhere after it. *)
Definition hasBraceSpan (s : JSString) : Prop :=
  exists pre mid post, s = pre ++ openBrace :: mid ++ closeBrace :: post.

Definition isWarning (e : LogEntry) : bool :=
  match e with Warning _ => true | Info _ => false end.

(** The package.json of a listed package is absent, or its [build] names
    no label: no [build], the empty string or the empty array. *)
Definition unlabelled (w : World) (pkg : WorkspacePackage) : Prop :=
  match packageJsonAt w (resolvePackageJson w (itemPath pkg)) with
  | Missing => True
  | Unreadable => False
  | Parsed doc => labelsOf (pjBuild doc) = []
  end.

(** Some listed package has a package.json whose [build] names the label. *)
Definition carried (w : World) (packages : list WorkspacePackage)
    (label : JSString) : Prop :=
  exists pkg doc,
    In pkg packages
    /\ packageJsonAt w (resolvePackageJson w (itemPath pkg)) = Parsed doc
    /\ In label (labelsOf (pjBuild doc)).


(** The error of [getTurboPackages] when no version is resolved. *)
Definition notInstalled : JSError :=
  newError (js "Repo does not have Turborepo installed").

(** What [run] reports when [getTurboPackages] throws [e]: the message,
    wrapped by [getProjects] and by [run]. *)
Definition failureReport (e : JSError) : Report :=
  SetFailed (crossMark ++ js " Action failed: Analysis failed: " ++ errMessage e).

End Observed.

Import Observed.

(* ================================================================= *)
(** ** More sample workspaces *)

Module Cases.

(** Scenario 1: no package.json in the working directory. *)
Definition noRoot : World :=
  {| rootPackageJson := Missing;
     resolvePackageJson := fun p => p;
     packageJsonAt := fun _ => Missing;
     platform := js "linux";
     arch := js "x64";
     restoreCache := fun _ => Returns None;
     saveCache := fun _ => Returns tt;
     getExecOutput := fun _ => Examples.listing;
     parseItems := fun _ => Some [] |}.

(** The root package.json holds the text [null]. *)
Definition nullRoot : World :=
  {| rootPackageJson := Parsed NullDocument;
     resolvePackageJson := fun p => p;
     packageJsonAt := fun _ => Missing;
     platform := js "linux";
     arch := js "x64";
     restoreCache := fun _ => Returns None;
     saveCache := fun _ => Returns tt;
     getExecOutput := fun _ => Examples.listing;
     parseItems := fun _ => Some [] |}.

(** A [build] array whose first label names a member of
    [Object.prototype]: [["constructor", "b"]]. *)
Definition inheritedFanOut : World :=
  Examples.workspace Examples.listing
    [Examples.item "@x/a" "./a"]
    [(js "./a/package.json",
      Examples.manifest "@x/a" (Some (Many [js "constructor"; js "b"])))].

(** A [build] array that names such a member twice:
    [["toString", "toString"]]. *)
Definition inheritedTwice : World :=
  Examples.workspace Examples.listing
    [Examples.item "@x/a" "./a"]
    [(js "./a/package.json",
      Examples.manifest "@x/a" (Some (Many [js "toString"; js "toString"])))].

(** Scenario 3: [turbo ls] prints text without a JSON object. *)
Definition noJson : World :=
  Examples.workspace (Examples.exited 0 "no json here" "") [] [].

(** A banner around the JSON object. *)
Definition banner : World :=
  Examples.workspace (Examples.exited 0 "turbo 2.5.8 {} done" "")
    Examples.dockerOnlyPackages [].

(** The cache is restored. *)
Definition cached : World :=
  Variation.withRestoreCache (fun key => Returns (Some key)) Examples.dockerOnly.

(** The pre-download exits with code 1. *)
Definition downloadFails : World :=
  Variation.withGetExecOutput
    (fun args => match args with
                 | [_; _] => Examples.exited 1 "" "not found"
                 | _ => Examples.listing
                 end)
    Examples.dockerOnly.

(** The second listed package has a package.json that does not parse. *)
Definition brokenManifestPackages : list WorkspacePackage :=
  [Examples.item "@x/a" "./a"; Examples.item "@x/b" "./b"].

Definition brokenManifest : World :=
  Examples.workspace Examples.listing brokenManifestPackages
    [(js "./a/package.json",
      Examples.manifest "@x/a" (Some (Single (js "docker"))));
     (js "./b/package.json", Unreadable)].

(** No listed package has a [build]. *)
Definition nothing : World :=
  Examples.workspace Examples.listing
    [Examples.item "@x/b" "./b"; Examples.item "@x/c" "./c"]
    [(js "./b/package.json", Examples.manifest "@x/b" None)].

End Cases.

(* ================================================================= *)
(** * Properties *)

(** ** Strings *)

Lemma str_eqb_eq (a b : JSString) : str_eqb a b = true <-> a = b.
Proof.
  revert b; induction a as [|x a IH]; intros [|y b]; simpl; split;
    try congruence; try reflexivity.
  - intros H; apply andb_prop in H as [Hx Hr].
    apply N.eqb_eq in Hx; apply IH in Hr; congruence.
  - intros H; injection H as -> ->.
    unfold unit_eqb; rewrite N.eqb_refl; simpl; now apply IH.
Qed.

Lemma str_eqb_refl (a : JSString) : str_eqb a a = true.
Proof. now apply str_eqb_eq. Qed.

Lemma str_eqb_neq (a b : JSString) : str_eqb a b = false <-> a <> b.
Proof.
  split.
  - intros H E; apply str_eqb_eq in E; congruence.
  - intros H; destruct (str_eqb a b) eqn:E; [apply str_eqb_eq in E; congruence | reflexivity].
Qed.

Lemma str_eqb_sym (a b : JSString) : str_eqb a b = str_eqb b a.
Proof.
  destruct (str_eqb a b) eqn:E.
  - apply str_eqb_eq in E; subst; symmetry; apply str_eqb_refl.
  - symmetry; apply str_eqb_neq; apply str_eqb_neq in E; congruence.
Qed.

(** Facts about the classes of code units, by arithmetic. *)
Ltac classes :=
  unfold isLowWord, isWord, isNonWord, isDash, lowerUnit, isUpper, isLower,
    isDigit, underscore, dash in *;
  repeat match goal with
         | |- context [N.leb ?a ?b] => destruct (N.leb_spec a b)
         | |- context [N.eqb ?a ?b] => destruct (N.eqb_spec a b)
         | H : context [N.leb ?a ?b] |- _ => destruct (N.leb_spec a b)
         | H : context [N.eqb ?a ?b] |- _ => destruct (N.eqb_spec a b)
         end;
  simpl in *; try congruence; try lia.

Lemma dash_is_dash (c : N) : isDash c = true -> c = dash.
Proof. classes. Qed.

Lemma dash_not_word (c : N) : isDash c = true -> isWord c = false.
Proof. classes. Qed.

Lemma lowWord_word (c : N) : isLowWord c = true -> isWord c = true.
Proof. classes. Qed.

Lemma lowWord_not_dash (c : N) : isLowWord c = true -> isDash c = false.
Proof. classes. Qed.

Lemma lower_lowWord (c : N) : isWord c = true -> isLowWord (lowerUnit c) = true.
Proof. classes. Qed.

Lemma lower_dash (c : N) : isWord c = true \/ isDash c = true ->
  isDash (lowerUnit c) = isDash c.
Proof. intros [H | H]; classes. Qed.

Lemma lower_fixed (c : N) : isLowWord c = true \/ isDash c = true ->
  lowerUnit c = c.
Proof. intros [H | H]; classes. Qed.

(** ** The scan against the specification's wording *)

Lemma replaceScan_pending (pat : Pattern) (rep : JSString) (k : nat) (s : JSString) :
  replaceScan pat rep false k s = replaceScan pat rep false 0 (skipn k s).
Proof.
  revert s; induction k as [|k IH]; intros s.
  - reflexivity.
  - destruct s as [|c r]; [reflexivity | simpl; apply IH].
Qed.

Lemma skipn_prefixLen (p : N -> bool) (s : JSString) :
  skipn (prefixLen p s) s = dropWhile p s.
Proof.
  induction s as [|c r IH]; simpl; [reflexivity |].
  destruct (p c); simpl; [apply IH | reflexivity].
Qed.

Lemma dropWhile_length (p : N -> bool) (s : JSString) :
  List.length (dropWhile p s) <= List.length s.
Proof.
  induction s as [|c r IH]; simpl; [lia |].
  destruct (p c); simpl; lia.
Qed.

Lemma scan_nonword_step (b : bool) (c : N) (r : JSString) :
  replaceScan nonWordRun [dash] b 0 (c :: r) =
  if isWord c then c :: replaceScan nonWordRun [dash] false 0 r
  else dash :: replaceScan nonWordRun [dash] false 0 (dropWhile isNonWord r).
Proof.
  simpl. unfold nonWordRun at 1. simpl prefixLen.
  unfold isNonWord at 1. destruct (isWord c); simpl.
  - reflexivity.
  - now rewrite replaceScan_pending, skipn_prefixLen.
Qed.

Lemma runs_cons (d : N) (r : JSString) :
  exists run rest, runs (d :: r) = (d :: run) :: rest.
Proof.
  simpl. destruct (runs r) as [|[|e run] rest]; eauto.
  destruct (Bool.eqb (isWord d) (isWord e)); eauto.
Qed.

Lemma runs_step (c : N) (r : JSString) :
  flat_map replaceRun (runs (c :: r)) =
  if isWord c then c :: flat_map replaceRun (runs r)
  else dash :: flat_map replaceRun (runs (dropWhile isNonWord r)).
Proof.
  revert c; induction r as [|d r IH]; intros c.
  - simpl. destruct (isWord c); reflexivity.
  - specialize (IH d).
    destruct (runs_cons d r) as (run & rest & E).
    change (runs (c :: d :: r)) with
      (match runs (d :: r) with
       | (d0 :: run0) :: rest0 =>
           if Bool.eqb (isWord c) (isWord d0) then (c :: d0 :: run0) :: rest0
           else [c] :: (d0 :: run0) :: rest0
       | _ => [[c]]
       end).
    rewrite E. cbn [dropWhile]. unfold isNonWord at 1.
    rewrite E in IH. cbn [flat_map] in IH. cbn [replaceRun] in IH.
    destruct (isWord c) eqn:Hc, (isWord d) eqn:Hd;
      cbn [Bool.eqb negb flat_map replaceRun app];
      rewrite ?Hc, ?Hd, ?E; cbn [flat_map replaceRun app]; rewrite ?Hd.
    + reflexivity.
    + reflexivity.
    + reflexivity.
    + exact IH.
Qed.

Lemma replace_nonword_runs (s : JSString) :
  replaceAll nonWordRun [dash] s = flat_map replaceRun (runs s).
Proof.
  unfold replaceAll. generalize true as b.
  remember (List.length s) as n eqn:Hn.
  assert (Hle : List.length s <= n) by lia. clear Hn.
  revert s Hle; induction n as [|n IH]; intros s Hle b.
  - destruct s; [reflexivity | simpl in Hle; lia].
  - destruct s as [|c r]; [reflexivity |].
    rewrite scan_nonword_step, runs_step. simpl in Hle.
    destruct (isWord c).
    + f_equal. apply IH. lia.
    + f_equal. apply IH. pose proof (dropWhile_length isNonWord r). lia.
Qed.

Lemma dropWhileEnd_nil_iff (s : JSString) :
  dropWhileEnd isDash s = [] <-> dropWhile isDash s = [].
Proof.
  induction s as [|c r IH]; simpl; [tauto |].
  destruct (isDash c) eqn:Hc.
  - destruct (dropWhileEnd isDash r); [tauto |].
    split; [discriminate | intros H; apply IH in H; discriminate].
  - destruct (dropWhileEnd isDash r); split; discriminate.
Qed.

Lemma dropWhileEnd_head (s t : JSString) (d : N) :
  dropWhileEnd isDash s = d :: t -> exists r, s = d :: r.
Proof.
  destruct s as [|c r]; simpl; [discriminate |].
  destruct (dropWhileEnd isDash r); [destruct (isDash c) |];
    intros H; inversion H; eauto.
Qed.

Lemma scan_edge_inner (s : JSString) :
  replaceScan edgeDashes [] false 0 s = dropWhileEnd isDash s.
Proof.
  induction s as [|c r IH]; [reflexivity |].
  cbn [replaceScan dropWhileEnd]. unfold edgeDashes at 1.
  cbn [prefixLen]. destruct (isDash c) eqn:Hc.
  - cbn [skipn]. rewrite skipn_prefixLen.
    destruct (dropWhile isDash r) as [|e t] eqn:Hd.
    + rewrite replaceScan_pending, skipn_prefixLen, Hd.
      apply dropWhileEnd_nil_iff in Hd. rewrite Hd. reflexivity.
    + rewrite IH.
      destruct (dropWhileEnd isDash r) eqn:He; [| reflexivity].
      apply dropWhileEnd_nil_iff in He. congruence.
  - rewrite IH. destruct (dropWhileEnd isDash r); reflexivity.
Qed.

Lemma replace_edge_dashes (s : JSString) :
  replaceAll edgeDashes [] s = dropWhileEnd isDash (dropWhile isDash s).
Proof.
  unfold replaceAll. destruct s as [|c r]; [reflexivity |].
  cbn [replaceScan dropWhile]. unfold edgeDashes at 1.
  cbn [prefixLen]. destruct (isDash c) eqn:Hc.
  - cbn [app]. now rewrite replaceScan_pending, skipn_prefixLen, scan_edge_inner.
  - rewrite scan_edge_inner. cbn [dropWhileEnd]. rewrite Hc.
    destruct (dropWhileEnd isDash r); reflexivity.
Qed.

(** The expression of package.ts computes what the specification words. *)
Lemma identifier_refines (s : JSString) : identifierOf s = normalize s.
Proof.
  unfold identifierOf, normalize.
  now rewrite replace_edge_dashes, replace_nonword_runs.
Qed.

(** The first replace leaves word code units and dashes only, each dash
    followed by a word code unit or by the end: [toLowerCase] sees ASCII. *)
Lemma replace_nonword_ascii (s : JSString) :
  separated isWord true (replaceAll nonWordRun [dash] s) = true.
Proof.
  rewrite replace_nonword_runs.
  remember (List.length s) as n eqn:Hn.
  assert (Hle : List.length s <= n) by lia. clear Hn.
  revert s Hle; induction n as [|n IH]; intros s Hle.
  - destruct s; [reflexivity | simpl in Hle; lia].
  - destruct s as [|c r]; [reflexivity |].
    rewrite runs_step. simpl in Hle.
    destruct (isWord c) eqn:Hc.
    + cbn [separated]. rewrite IH by lia.
      destruct (isDash c) eqn:Hd; [apply dash_not_word in Hd; congruence |].
      now rewrite Hc.
    + assert (Hl : List.length (dropWhile isNonWord r) <= n)
        by (pose proof (dropWhile_length isNonWord r); lia).
      cbn [separated]. rewrite (IH _ Hl).
      change (isDash dash) with true. rewrite andb_true_r.
      destruct (dropWhile isNonWord r) as [|d t] eqn:Hd; [reflexivity |].
      rewrite runs_step.
      assert (Hw : isWord d = true).
      { clear - Hd. induction r as [|e r IH]; simpl in Hd; [discriminate |].
        unfold isNonWord in Hd at 1. destruct (isWord e) eqn:He; simpl in Hd.
        - now inversion Hd; subst.
        - now apply IH. }
      now rewrite Hw.
Qed.

(** ** Normalized strings are canonical, canonical strings are fixed *)

Lemma separated_tail ok e c r :
  separated ok e (c :: r) = true -> separated ok e r = true.
Proof. simpl. intros H. now apply andb_prop in H. Qed.

Lemma separated_lower (s : JSString) :
  separated isWord true s = true ->
  separated isLowWord true (toLowerCase s) = true.
Proof.
  induction s as [|c r IH]; [reflexivity |].
  intros H. pose proof (separated_tail _ _ _ _ H) as Hr.
  cbn [toLowerCase map separated] in *. fold (toLowerCase r).
  rewrite (IH Hr), andb_true_r.
  apply andb_prop in H as [H _].
  destruct (isDash c) eqn:Hc.
  - rewrite lower_dash, Hc by auto.
    destruct r as [|d r']; [reflexivity |]. simpl. now apply lower_lowWord.
  - rewrite lower_dash, Hc by auto. now apply lower_lowWord.
Qed.

Lemma separated_dropWhile ok e p (s : JSString) :
  separated ok e s = true -> separated ok e (dropWhile p s) = true.
Proof.
  induction s as [|c r IH]; [reflexivity |].
  intros H. cbn [dropWhile]. destruct (p c); [| exact H].
  apply IH. eapply separated_tail; eauto.
Qed.

Lemma dropWhile_head (s : JSString) : startsWithDash (dropWhile isDash s) = false.
Proof.
  induction s as [|c r IH]; [reflexivity |].
  simpl. destruct (isDash c) eqn:Hc; [exact IH | simpl; exact Hc].
Qed.

Lemma separated_dropWhileEnd ok (s : JSString) :
  separated ok true s = true ->
  separated ok false (dropWhileEnd isDash s) = true.
Proof.
  induction s as [|c r IH]; [reflexivity |].
  intros H. pose proof (separated_tail _ _ _ _ H) as Hr.
  specialize (IH Hr). cbn [dropWhileEnd].
  cbn [separated] in H. apply andb_prop in H as [H _].
  destruct (dropWhileEnd isDash r) as [|d t] eqn:E.
  - destruct (isDash c) eqn:Hc; [reflexivity |].
    cbn [separated]. now rewrite Hc, H.
  - destruct (dropWhileEnd_head _ E) as [r' ->].
    cbn [separated] in *. rewrite IH, andb_true_r.
    destruct (isDash c); exact H.
Qed.

Lemma dropWhileEnd_starts (s : JSString) :
  startsWithDash s = false -> startsWithDash (dropWhileEnd isDash s) = false.
Proof.
  destruct s as [|c r]; [reflexivity |].
  simpl. intros Hc. rewrite Hc. destruct (dropWhileEnd isDash r); simpl; auto.
Qed.

Lemma normalize_canonical (s : JSString) : canonical (normalize s) = true.
Proof.
  unfold canonical, normalize. apply andb_true_intro; split.
  - apply separated_dropWhileEnd, separated_dropWhile, separated_lower.
    rewrite <- replace_nonword_runs. apply replace_nonword_ascii.
  - apply negb_true_iff, dropWhileEnd_starts, dropWhile_head.
Qed.

Lemma canonical_runs (s : JSString) :
  separated isLowWord false s = true -> flat_map replaceRun (runs s) = s.
Proof.
  induction s as [|c r IH]; [reflexivity |].
  intros H. pose proof (separated_tail _ _ _ _ H) as Hr.
  rewrite runs_step. cbn [separated] in H. apply andb_prop in H as [H _].
  destruct (isDash c) eqn:Hc.
  - rewrite (dash_not_word _ Hc), (dash_is_dash _ Hc).
    destruct r as [|d r']; [discriminate |].
    cbn [dropWhile]. unfold isNonWord. rewrite (lowWord_word _ H). cbn [negb].
    now rewrite IH.
  - rewrite (lowWord_word _ H). now rewrite IH.
Qed.

Lemma canonical_lower (s : JSString) :
  separated isLowWord false s = true -> toLowerCase s = s.
Proof.
  induction s as [|c r IH]; [reflexivity |].
  intros H. pose proof (separated_tail _ _ _ _ H) as Hr.
  cbn [toLowerCase map]. fold (toLowerCase r). rewrite (IH Hr). f_equal.
  cbn [separated] in H. apply andb_prop in H as [H _].
  apply lower_fixed. destruct (isDash c); auto.
Qed.

Lemma canonical_dropWhileEnd (s : JSString) :
  separated isLowWord false s = true -> dropWhileEnd isDash s = s.
Proof.
  induction s as [|c r IH]; [reflexivity |].
  intros H. pose proof (separated_tail _ _ _ _ H) as Hr.
  cbn [dropWhileEnd]. rewrite (IH Hr).
  destruct r as [|d r']; [| reflexivity].
  cbn [separated] in H. destruct (isDash c); [discriminate | reflexivity].
Qed.

Lemma canonical_fixed (s : JSString) : canonical s = true -> normalize s = s.
Proof.
  unfold canonical, normalize. intros H. apply andb_prop in H as [Hs Hd].
  rewrite (canonical_runs _ Hs), (canonical_lower _ Hs).
  assert (E : dropWhile isDash s = s).
  { destruct s as [|c r]; [reflexivity |]. simpl in *.
    apply negb_true_iff in Hd. now rewrite Hd. }
  rewrite E. now apply canonical_dropWhileEnd.
Qed.

Lemma dropWhile_filter (p : N -> bool) (s : JSString) :
  dropWhile p (filter p s) = [].
Proof.
  induction s as [|c r IH]; [reflexivity |].
  simpl. destruct (p c) eqn:Hc; [simpl; now rewrite Hc | exact IH].
Qed.

Lemma normalize_symbols (s : JSString) : normalize (filter isNonWord s) = [].
Proof.
  unfold normalize.
  destruct (filter isNonWord s) as [|c r] eqn:E; [reflexivity |].
  assert (Hc : isWord c = false).
  { assert (In c (filter isNonWord s)) by (rewrite E; now left).
    apply filter_In in H as [_ H]. unfold isNonWord in H.
    now apply negb_true_iff in H. }
  assert (Hr : dropWhile isNonWord r = []).
  { pose proof (dropWhile_filter isNonWord s) as H. rewrite E in H.
    simpl in H. unfold isNonWord in H at 1. now rewrite Hc in H. }
  rewrite runs_step, Hc, Hr. reflexivity.
Qed.

(** C3: the identifier expression of [getPackageInfo] is a total function
    of the package name, and applying it to its own result changes
    nothing: normalize(normalize(s)) = normalize(s) for every string s. *)
Theorem identifier_idempotent (s : JSString) :
  identifierOf (identifierOf s) = identifierOf s.
Proof.
  rewrite !identifier_refines.
  apply canonical_fixed, normalize_canonical.
Qed.

(** C4: for every package name the identifier is the name with every
    maximal run of non-word characters replaced by one dash, lowercased,
    and stripped of leading and trailing dashes; "@My/Lib!!" gives
    "my-lib", and the empty name and every name made of symbols only give
    the empty string. *)
Theorem identifier_meets_specification :
  (forall s, identifierOf s = normalize s)
  /\ identifierOf (js "@My/Lib!!") = js "my-lib"
  /\ identifierOf [] = []
  /\ (forall s, identifierOf (filter isNonWord s) = []).
Proof.
  split; [exact identifier_refines |].
  split; [reflexivity |].
  split; [reflexivity |].
  intros s. rewrite identifier_refines. apply normalize_symbols.
Qed.

(** ** turbo.ts: the version, the cache warm-up, the listing *)

Lemma getTurboVersion_cases (w : World) :
  getTurboVersion w =
  match rootPackageJson w with
  | Missing => ([], Returns None)
  | Unreadable => ([], Throws rootFailure)
  | Parsed NullDocument => ([], Throws rootFailure)
  | Parsed (ObjectDocument doc) =>
      ([], Returns (orElse (optTurbo (devDependencies doc))
                           (optTurbo (dependencies doc))))
  end.
Proof.
  unfold getTurboVersion. destruct (rootPackageJson w) as [| |[|doc]]; reflexivity.
Qed.

(** C7, as the code has it: no version when the root package.json is
    missing, and when it parses to a document other than [null] without a
    turbo entry; an error exactly when it exists and either cannot be
    read or parsed or parses to [null]; with both entries present the
    development entry is returned when it is a non-empty string, and the
    runtime entry when the development entry is the empty string. *)
Theorem getTurboVersion_resolution (w : World) :
  (rootPackageJson w = Missing ->
     outcomeOf (getTurboVersion w) = Returns None)
  /\ (forall doc, rootPackageJson w = Parsed (ObjectDocument doc) ->
        optTurbo (devDependencies doc) = None ->
        optTurbo (dependencies doc) = None ->
        outcomeOf (getTurboVersion w) = Returns None)
  /\ ((exists e, outcomeOf (getTurboVersion w) = Throws e) <->
        rootPackageJson w = Unreadable \/ rootPackageJson w = Parsed NullDocument)
  /\ (forall doc dev dep, rootPackageJson w = Parsed (ObjectDocument doc) ->
        optTurbo (devDependencies doc) = Some dev ->
        optTurbo (dependencies doc) = Some dep ->
        outcomeOf (getTurboVersion w) =
          Returns (Some (if truthy dev then dev else dep))).
Proof.
  rewrite getTurboVersion_cases. repeat split.
  - intros ->. reflexivity.
  - intros doc -> Hd Hr. simpl. now rewrite Hd, Hr.
  - intros [e He]. destruct (rootPackageJson w) as [| |[|doc]]; simpl in He;
      [discriminate | now left | now right | discriminate].
  - intros [-> | ->]; now exists rootFailure.
  - intros doc dev dep -> Hd Hr. simpl. rewrite Hd, Hr. simpl.
    destruct (truthy dev); reflexivity.
Qed.

Lemma getTurboVersion_resolution_witness :
  outcomeOf (getTurboVersion Examples.emptyDevEntry) = Returns (Some (js "2.5.8")).
Proof.
  exact (proj2 (proj2 (proj2 (getTurboVersion_resolution Examples.emptyDevEntry)))
           _ (js "") (js "2.5.8") eq_refl eq_refl eq_refl).
Defined.

(** Both entries exist, the development entry is "", and the runtime
    entry "2.5.8" is what comes back. *)
Lemma getTurboVersion_dev_entry_counterexample :
  ~ (forall w doc dev dep, rootPackageJson w = Parsed (ObjectDocument doc) ->
       optTurbo (devDependencies doc) = Some dev ->
       optTurbo (dependencies doc) = Some dep ->
       outcomeOf (getTurboVersion w) = Returns (Some dev)).
Proof.
  intros H.
  specialize (H Examples.emptyDevEntry _ (js "") (js "2.5.8") eq_refl eq_refl eq_refl).
  discriminate H.
Qed.

(** The root package.json holds [null]: it is read and parsed, and
    [getTurboVersion] fails all the same. *)
Lemma getTurboVersion_null_counterexample :
  ~ (forall w, (exists e, outcomeOf (getTurboVersion w) = Throws e) ->
               rootPackageJson w = Unreadable).
Proof.
  intros H.
  assert (E : rootPackageJson Cases.nullRoot = Unreadable)
    by (apply H; exists rootFailure; reflexivity).
  discriminate E.
Qed.

(** C7 as stated fails twice: the development entry is not returned when
    it is the empty string, and a root package.json that parses to [null]
    makes [getTurboVersion] fail although it can be parsed. *)
Lemma getTurboVersion_as_stated_counterexample :
  ~ (forall w doc dev dep, rootPackageJson w = Parsed (ObjectDocument doc) ->
       optTurbo (devDependencies doc) = Some dev ->
       optTurbo (dependencies doc) = Some dep ->
       outcomeOf (getTurboVersion w) = Returns (Some dev))
  /\ ~ (forall w, (exists e, outcomeOf (getTurboVersion w) = Throws e) ->
                  rootPackageJson w = Unreadable).
Proof.
  split;
    [exact getTurboVersion_dev_entry_counterexample
    | exact getTurboVersion_null_counterexample].
Qed.

(** C5: whatever the cache service and the subprocess runner do, the cache
    warm-up returns to its caller without an error; an exception of the
    restore, of the pre-download or of the save is logged as a warning. *)
Theorem ensureTurboCache_never_throws (w : World) (turboVersion : JSString) :
  outcomeOf (ensureTurboCache w turboVersion) = Returns tt
  /\ (forall e, restoreCache w (cacheKeyOf w turboVersion) = Throws e ->
        In (Warning (js "Cache restore failed: " ++ errorToString e))
           (logOf (ensureTurboCache w turboVersion)))
  /\ (forall e, restoreHit w turboVersion = false ->
        preDownload w turboVersion = Throws e ->
        In (Warning (js "Failed to pre-download turbo: " ++ errorToString e))
           (logOf (ensureTurboCache w turboVersion)))
  /\ (forall e out, restoreHit w turboVersion = false ->
        preDownload w turboVersion = Returns out ->
        exitCode out = 0%N ->
        saveCache w (cacheKeyOf w turboVersion) = Throws e ->
        In (Warning (js "Failed to save cache: " ++ errorToString e))
           (logOf (ensureTurboCache w turboVersion))).
Proof.
  unfold restoreHit, preDownload, ensureTurboCache, outcomeOf, logOf.
  destruct (restoreCache w (cacheKeyOf w turboVersion)) as [[[|c k]|]|e0];
    destruct (getExecOutput w [atVersion turboVersion; js "--version"]) as [out|e1];
    try destruct (exitCode out =? 0)%N eqn:Hexit;
    try destruct (saveCache w (cacheKeyOf w turboVersion)) as [[]|e2] eqn:Hsave;
    cbn [bind tryCatch info warning ret lift throw fst snd app];
    rewrite ?Hexit;
    cbn [bind tryCatch info warning ret lift throw fst snd app];
    rewrite ?Hsave;
    cbn [bind tryCatch info warning ret lift throw fst snd app];
    (split; [reflexivity |]);
    (split; [intros e H; try discriminate H; try (injection H as <-); simpl; tauto |]);
    (split; [intros e H1 H; try discriminate H1; try discriminate H;
             try (injection H as <-); simpl; tauto |]);
    intros e o H1 H2 H3 H4; try discriminate H1; try discriminate H2;
    try discriminate H4; try (injection H4 as <-); try (injection H2 as <-);
    try (apply N.eqb_eq in H3; congruence); simpl; tauto.
Qed.

Lemma ensureTurboCache_never_throws_witness :
  outcomeOf (ensureTurboCache Examples.brokenCache (js "2.5.8")) = Returns tt
  /\ In (Warning (js "Cache restore failed: Error: restore"))
        (logOf (ensureTurboCache Examples.brokenCache (js "2.5.8")))
  /\ In (Warning (js "Failed to pre-download turbo: Error: spawn"))
        (logOf (ensureTurboCache Examples.brokenCache (js "2.5.8"))).
Proof.
  pose proof (ensureTurboCache_never_throws Examples.brokenCache (js "2.5.8"))
    as (H0 & H1 & H2 & _).
  split; [exact H0 |].
  split; [exact (H1 _ eq_refl) | exact (H2 _ eq_refl eq_refl)].
Defined.

(** Outcomes through [bind] and [tryCatch]. *)
Lemma outcome_bind {A B} (m : Action A) (k : A -> Action B) (a : A) :
  outcomeOf m = Returns a -> outcomeOf (bind m k) = outcomeOf (k a).
Proof.
  destruct m as [l o]. simpl. intros ->. simpl. now destruct (k a).
Qed.

Lemma outcome_bind_throws {A B} (m : Action A) (k : A -> Action B) (e : JSError) :
  outcomeOf m = Throws e -> outcomeOf (bind m k) = Throws e.
Proof. destruct m as [l o]. simpl. now intros ->. Qed.

Lemma outcome_bind_inv {A B} (m : Action A) (k : A -> Action B) (b : B) :
  outcomeOf (bind m k) = Returns b ->
  exists a, outcomeOf m = Returns a /\ outcomeOf (k a) = Returns b.
Proof.
  destruct m as [l [a|e]]; simpl; [| discriminate].
  intros H. exists a. split; [reflexivity |]. now destruct (k a).
Qed.

Lemma outcome_tryCatch_rethrow {A} (m : Action A) (e' : JSError) :
  outcomeOf (tryCatch m (fun _ => throw e')) =
  match outcomeOf m with
  | Returns a => Returns a
  | Throws _ => Throws e'
  end.
Proof. destruct m as [l [a|e]]; reflexivity. Qed.

Lemma outcome_tryCatch_rethrow_with {A} (m : Action A) (f : JSError -> JSError) :
  outcomeOf (tryCatch m (fun e => throw (f e))) =
  match outcomeOf m with
  | Returns a => Returns a
  | Throws e => Throws (f e)
  end.
Proof. destruct m as [l [a|e]]; reflexivity. Qed.

Lemma ensureTurboCache_returns (w : World) (turboVersion : JSString) :
  outcomeOf (ensureTurboCache w turboVersion) = Returns tt.
Proof.
  unfold ensureTurboCache, outcomeOf.
  destruct (restoreCache w (cacheKeyOf w turboVersion)) as [[[|c k]|]|e0];
    destruct (getExecOutput w [atVersion turboVersion; js "--version"]) as [out|e1];
    try destruct (exitCode out =? 0)%N eqn:Hexit;
    try destruct (saveCache w (cacheKeyOf w turboVersion)) as [[]|e2] eqn:Hsave;
    cbn [bind tryCatch info warning ret lift throw fst snd app];
    rewrite ?Hexit;
    cbn [bind tryCatch info warning ret lift throw fst snd app];
    rewrite ?Hsave; reflexivity.
Qed.

(** Whatever goes wrong inside the [try] of [getTurboPackages], the caller
    sees the one message of its [catch]. *)
Lemma getTurboPackages_outcome (w : World) :
  outcomeOf (getTurboPackages w) =
  match outcomeOf (getTurboVersion w) with
  | Throws e => Throws e
  | Returns (Some ((_ :: _) as v)) =>
      match listPackages w v with
      | Throws _ => Throws retrievalFailure
      | Returns output =>
          if negb (exitCode output =? 0)%N then Throws retrievalFailure
          else match matchBraces (stdout output) with
               | None => Throws retrievalFailure
               | Some json =>
                   match parseItems w json with
                   | Some items => Returns items
                   | None => Throws retrievalFailure
                   end
               end
      end
  | Returns _ => Throws (newError (js "Repo does not have Turborepo installed"))
  end.
Proof.
  unfold getTurboPackages.
  destruct (outcomeOf (getTurboVersion w)) as [[[|c v]|]|e] eqn:Hv.
  - now rewrite (outcome_bind _ _ Hv).
  - rewrite (outcome_bind _ _ Hv).
    rewrite (outcome_bind (info _) _ (a := tt) eq_refl).
    rewrite (outcome_bind _ _ (ensureTurboCache_returns w (c :: v))).
    rewrite outcome_tryCatch_rethrow. unfold listPackages.
    destruct (getExecOutput w _) as [output|e]; [| reflexivity].
    cbn [lift bind outcomeOf snd].
    destruct (exitCode output =? 0)%N; cbn [negb throw snd]; [| reflexivity].
    destruct (matchBraces (stdout output)) as [json|]; [| reflexivity].
    destruct (parseItems w json); reflexivity.
  - now rewrite (outcome_bind _ _ Hv).
  - now rewrite (outcome_bind_throws _ _ Hv).
Qed.

(** X3: a non-zero exit code never shows in what the caller sees: the
    error is the one of the [catch], whatever the error stream held. *)
Lemma nonzero_exit_outcome (w : World) (v : JSString) (output : ExecOutput) :
  outcomeOf (getTurboVersion w) = Returns (Some v) ->
  truthy v = true ->
  listPackages w v = Returns output ->
  exitCode output <> 0%N ->
  outcomeOf (getTurboPackages w) = Throws retrievalFailure.
Proof.
  intros Hv Ht Hls Hexit. rewrite getTurboPackages_outcome, Hv.
  destruct v as [|c v]; [discriminate |]. rewrite Hls.
  apply N.eqb_neq in Hexit. now rewrite Hexit.
Qed.

(** C1 at its failing input: [turbo ls] exits with code 1 and "boom" on
    its error stream; [getTurboPackages] throws the message of its
    [catch], and neither that message nor the one [run] reports contains
    "boom".  The same holds when the runner rejects on the exit code. *)
Theorem getTurboPackages_drops_stderr :
  outcomeOf (getTurboPackages Examples.boom) = Throws retrievalFailure
  /\ outcomeOf (getTurboPackages Examples.boomRejected) = Throws retrievalFailure
  /\ includes (js "boom") (errMessage retrievalFailure) = false
  /\ snd (run Examples.boom) =
       SetFailed (crossMark ++ js " Action failed: Analysis failed: "
                    ++ js "Failed to retrieve turbo packages")
  /\ includes (js "boom")
       (crossMark ++ js " Action failed: Analysis failed: "
          ++ js "Failed to retrieve turbo packages") = false.
Proof.
  split; [| split; [| split; [| split]]]; vm_compute; reflexivity.
Qed.

(** ** main.ts: the result object *)

Lemma getOwn_none (k : JSString) (o : TurboProjects) :
  getOwn k o = None <-> ~ In k (map fst o).
Proof.
  induction o as [|[k' v] o IH]; simpl; [tauto |].
  destruct (str_eqb k' k) eqn:E.
  - apply str_eqb_eq in E. split; [discriminate | tauto].
  - apply str_eqb_neq in E. tauto.
Qed.

Lemma getOwn_in (k : JSString) (v : list ProjectInfo) (o : TurboProjects) :
  getOwn k o = Some v -> In (k, v) o.
Proof.
  induction o as [|[k' v'] o IH]; simpl; [discriminate |].
  destruct (str_eqb k' k) eqn:E.
  - apply str_eqb_eq in E. intros H; injection H as ->. left; congruence.
  - auto.
Qed.

Lemma in_getOwn (k : JSString) (v : list ProjectInfo) (o : TurboProjects) :
  NoDup (map fst o) -> In (k, v) o -> getOwn k o = Some v.
Proof.
  induction o as [|[k' v'] o IH]; simpl; [tauto |].
  intros Hnd [H | H]; inversion Hnd; subst.
  - injection H as -> ->. now rewrite str_eqb_refl.
  - destruct (str_eqb k' k) eqn:E; [| auto].
    apply str_eqb_eq in E; subst. exfalso. apply H2.
    change k with (fst (k, v)). now apply in_map.
Qed.

Lemma getOwn_setOwn (k k' : JSString) (v : list ProjectInfo) (o : TurboProjects) :
  getOwn k' (setOwn k v o) = if str_eqb k k' then Some v else getOwn k' o.
Proof.
  induction o as [|[k0 v0] o IH]; simpl.
  - destruct (str_eqb k k'); reflexivity.
  - destruct (str_eqb k0 k) eqn:E; simpl.
    + apply str_eqb_eq in E; subst. destruct (str_eqb k k'); reflexivity.
    + destruct (str_eqb k0 k') eqn:E'; [| exact IH].
      apply str_eqb_eq in E'; subst. apply str_eqb_neq in E.
      assert (str_eqb k k' = false) as -> by (apply str_eqb_neq; congruence).
      reflexivity.
Qed.

Lemma setOwn_setOwn (k : JSString) (v v' : list ProjectInfo) (o : TurboProjects) :
  setOwn k v (setOwn k v' o) = setOwn k v o.
Proof.
  induction o as [|[k0 v0] o IH]; simpl.
  - now rewrite str_eqb_refl.
  - destruct (str_eqb k0 k) eqn:E; simpl; rewrite E; [reflexivity | now rewrite IH].
Qed.

Lemma existsb_str (l : JSString) (ks : list JSString) :
  existsb (str_eqb l) ks = true <-> In l ks.
Proof.
  rewrite existsb_exists. split.
  - intros (x & Hx & E). apply str_eqb_eq in E. now subst.
  - intros H. exists l. split; [exact H | apply str_eqb_refl].
Qed.

Lemma keys_setOwn (k : JSString) (v : list ProjectInfo) (o : TurboProjects) :
  map fst (setOwn k v o) = extend (map fst o) k.
Proof.
  unfold extend. induction o as [|[k0 v0] o IH]; simpl; [reflexivity |].
  rewrite (str_eqb_sym k k0).
  destruct (str_eqb k0 k) eqn:E; simpl; [reflexivity |].
  rewrite IH. destruct (existsb (str_eqb k) (map fst o)); reflexivity.
Qed.

Lemma addToGroup_returns msg (o o' : TurboProjects) (l : JSString) (i : ProjectInfo) :
  addToGroup msg o l i = Returns o' -> o' = place o l i.
Proof.
  unfold addToGroup, place, groupOf, get.
  destruct (getOwn l o) as [g|] eqn:E.
  - rewrite E. intros H; now injection H as <-.
  - destruct (isPrototypeKey l).
    + rewrite E. discriminate.
    + rewrite getOwn_setOwn, str_eqb_refl, setOwn_setOwn.
      intros H; now injection H as <-.
Qed.

Lemma addToGroups_returns (o o' : TurboProjects) (ls : list JSString) (i : ProjectInfo) :
  addToGroups o ls i = Returns o' ->
  o' = placeAll o (map (fun l => (l, i)) ls).
Proof.
  revert o; induction ls as [|l ls IH]; intros o; simpl.
  - intros H; now injection H as <-.
  - destruct (addToGroup _ o l i) as [o1|e] eqn:E; [| discriminate].
    apply addToGroup_returns in E; subst. apply IH.
Qed.

Lemma placeAll_app (o : TurboProjects) (ps qs : list (JSString * ProjectInfo)) :
  placeAll o (ps ++ qs) = placeAll (placeAll o ps) qs.
Proof. apply fold_left_app. Qed.

Lemma getPackageInfo_outcome (w : World) (p : JSString) :
  outcomeOf (getPackageInfo w p) =
  match packageJsonAt w (resolvePackageJson w p) with
  | Missing => Returns None
  | Unreadable =>
      Throws (newError (js "Failed to retrieve package info: "
                          ++ resolvePackageJson w p))
  | Parsed doc => Returns (Some (infoOf p doc))
  end.
Proof.
  unfold getPackageInfo.
  destruct (packageJsonAt w (resolvePackageJson w p)); reflexivity.
Qed.

Lemma visit_returns (w : World) (o o' : TurboProjects) (pkg : WorkspacePackage) :
  outcomeOf (visit w o pkg) = Returns o' -> o' = placeAll o (placementsOf w pkg).
Proof.
  unfold visit, placementsOf, infoAt. intros H.
  apply outcome_bind_inv in H as (r & Hr & H).
  rewrite getPackageInfo_outcome in Hr.
  destruct (packageJsonAt w (resolvePackageJson w (itemPath pkg))) as [| |doc];
    [| discriminate |]; injection Hr as <-.
  - simpl in H. now injection H as <-.
  - cbn [infoOf build labelsOf] in *.
    destruct (pjBuild doc) as [[label|labels]|]; cbn [labelsOf].
    + destruct (truthy label); simpl in H.
      * apply addToGroup_returns in H. now subst.
      * now injection H as <-.
    + simpl in H. now apply addToGroups_returns in H.
    + simpl in H. now injection H as <-.
Qed.

Lemma forEachPackage_returns (w : World) (packages : list WorkspacePackage)
    (o o' : TurboProjects) :
  outcomeOf (forEachPackage w o packages) = Returns o' ->
  o' = placeAll o (placements w packages).
Proof.
  revert o; induction packages as [|pkg rest IH]; intros o H.
  - simpl in H. now injection H as <-.
  - cbn [forEachPackage] in H.
    apply outcome_bind_inv in H as (o1 & H1 & H).
    apply visit_returns in H1. subst o1.
    unfold placements. cbn [flat_map]. rewrite placeAll_app. now apply IH.
Qed.

Lemma groupOf_place (o : TurboProjects) (l k : JSString) (i : ProjectInfo) :
  groupOf (place o l i) k =
  if str_eqb l k then groupOf o k ++ [i] else groupOf o k.
Proof.
  unfold place, groupOf at 1. rewrite getOwn_setOwn.
  destruct (str_eqb l k) eqn:E; [| reflexivity].
  apply str_eqb_eq in E. now subst.
Qed.

Lemma groupOf_placeAll (ps : list (JSString * ProjectInfo)) (o : TurboProjects)
    (k : JSString) :
  groupOf (placeAll o ps) k = groupOf o k ++ carrying k ps.
Proof.
  revert o; induction ps as [|[l i] ps IH]; intros o.
  - simpl. now rewrite app_nil_r.
  - cbn [placeAll fold_left fst snd]. fold (placeAll (place o l i) ps).
    rewrite IH, groupOf_place. unfold carrying. cbn [filter fst].
    destruct (str_eqb l k); [| reflexivity].
    cbn [map snd]. now rewrite <- app_assoc.
Qed.

Lemma keys_placeAll (ps : list (JSString * ProjectInfo)) (o : TurboProjects) :
  map fst (placeAll o ps) = fold_left extend (map fst ps) (map fst o).
Proof.
  revert o; induction ps as [|[l i] ps IH]; intros o; [reflexivity |].
  cbn [placeAll fold_left fst snd map]. fold (placeAll (place o l i) ps).
  rewrite IH. unfold place. now rewrite keys_setOwn.
Qed.

Lemma filter_filter {A} (p q : A -> bool) (l : list A) :
  filter p (filter q l) = filter (fun x => q x && p x) l.
Proof.
  induction l as [|x l IH]; [reflexivity |].
  simpl. destruct (q x); simpl; [destruct (p x) |]; now rewrite IH.
Qed.

Lemma extend_firstSeen (ls ks : list JSString) :
  fold_left extend ls ks = ks ++ filter (fresh ks) (firstSeen ls).
Proof.
  revert ks; induction ls as [|l ls IH]; intros ks.
  - simpl. now rewrite app_nil_r.
  - cbn [fold_left firstSeen filter]. rewrite IH. unfold extend, fresh at 2.
    destruct (existsb (str_eqb l) ks) eqn:E; cbn [negb].
    + f_equal. rewrite filter_filter. apply filter_ext_in. intros k _.
      destruct (str_eqb l k) eqn:Ek; [| reflexivity].
      apply str_eqb_eq in Ek; subst. unfold fresh. now rewrite E.
    + rewrite <- app_assoc. cbn [app]. do 2 f_equal.
      rewrite filter_filter. apply filter_ext. intros k.
      unfold fresh. rewrite existsb_app. cbn [existsb].
      rewrite orb_false_r, negb_orb, (str_eqb_sym k l).
      apply andb_comm.
Qed.

Lemma firstSeen_keys (ps : list (JSString * ProjectInfo)) :
  map fst (placeAll [] ps) = firstSeen (map fst ps).
Proof.
  rewrite keys_placeAll, extend_firstSeen. cbn [map app].
  rewrite <- (filter_ext (fun _ => true)) by reflexivity.
  induction (firstSeen (map fst ps)) as [|x l IH]; [reflexivity |].
  simpl. now rewrite IH.
Qed.

Lemma firstSeen_in (l : JSString) (ls : list JSString) :
  In l (firstSeen ls) <-> In l ls.
Proof.
  induction ls as [|x ls IH]; simpl; [tauto |].
  rewrite filter_In, IH. split.
  - intros [H | [H _]]; auto.
  - intros [H | H]; [now left |].
    destruct (str_eqb x l) eqn:E.
    + apply str_eqb_eq in E. now left.
    + right. now split.
Qed.

Lemma firstSeen_NoDup (ls : list JSString) : NoDup (firstSeen ls).
Proof.
  induction ls as [|x ls IH]; simpl; constructor.
  - rewrite filter_In. intros [_ H]. now rewrite str_eqb_refl in H.
  - now apply NoDup_filter.
Qed.

(** ** main.ts: what [getProjects] returns *)

Lemma outcome_tryCatch_inv {A} (m : Action A) (f : JSError -> JSError) (a : A) :
  outcomeOf (tryCatch m (fun e => throw (f e))) = Returns a ->
  outcomeOf m = Returns a.
Proof. destruct m as [l [x|e]]; simpl; [auto | discriminate]. Qed.

Lemma forEach_returns {A} (body : A -> Action unit) (l : list A) :
  (forall x, outcomeOf (body x) = Returns tt) ->
  outcomeOf (forEach body l) = Returns tt.
Proof.
  intros Hb. induction l as [|x l IH]; [reflexivity |].
  cbn [forEach]. now rewrite (outcome_bind _ _ (Hb x)).
Qed.

Lemma logGroup_returns (entry : JSString * list ProjectInfo) :
  outcomeOf (logGroup entry) = Returns tt.
Proof.
  unfold logGroup.
  rewrite (outcome_bind (info _) _ (a := tt) eq_refl).
  now rewrite (outcome_bind _ _ (forEach_returns logProject _ (fun _ => eq_refl))).
Qed.

Lemma getProjects_returns (w : World) (result : TurboProjects) :
  outcomeOf (getProjects w) = Returns result ->
  exists packages,
    outcomeOf (getTurboPackages w) = Returns packages
    /\ result = placeAll [] (placements w packages).
Proof.
  unfold getProjects. intros H.
  apply outcome_tryCatch_inv in H.
  apply outcome_bind_inv in H as (packages & Hp & H).
  apply outcome_bind_inv in H as ([] & _ & H).
  apply outcome_bind_inv in H as (r & Hr & H).
  exists packages. split; [exact Hp |].
  apply forEachPackage_returns in Hr. subst r.
  destruct (Nat.eqb _ 0).
  - apply outcome_bind_inv in H as ([] & _ & H). simpl in H. congruence.
  - apply outcome_bind_inv in H as ([] & _ & H).
    rewrite (outcome_bind _ _ (forEach_returns logGroup _ logGroup_returns)) in H.
    apply outcome_bind_inv in H as ([] & _ & H). simpl in H. congruence.
Qed.

(** The two facts every statement about the returned mapping rests on. *)
Lemma getProjects_groups (w : World) (packages : list WorkspacePackage)
    (result : TurboProjects) :
  outcomeOf (getTurboPackages w) = Returns packages ->
  outcomeOf (getProjects w) = Returns result ->
  (forall label, groupOf result label = carrying label (placements w packages))
  /\ map fst result = encounterOrder w packages.
Proof.
  intros Hp H. apply getProjects_returns in H as (packages' & Hp' & ->).
  assert (packages' = packages) by congruence. subst packages'.
  split.
  - intros label. now rewrite groupOf_placeAll.
  - apply firstSeen_keys.
Qed.

(** ** The order in which the keys are enumerated *)

Lemma insertByIndex_in (x y : N * JSString) (l : list (N * JSString)) :
  In x (insertByIndex y l) <-> x = y \/ In x l.
Proof.
  induction l as [|z l IH]; simpl.
  - intuition congruence.
  - destruct (fst y <=? fst z)%N; simpl; rewrite ?IH; intuition congruence.
Qed.

Lemma sortByIndex_in (x : N * JSString) (l : list (N * JSString)) :
  In x (sortByIndex l) <-> In x l.
Proof.
  induction l as [|y l IH]; simpl; [tauto |].
  rewrite insertByIndex_in, IH. intuition congruence.
Qed.

Lemma insertByIndex_sorted (x : N * JSString) (l : list (N * JSString)) :
  ascending l -> ascending (insertByIndex x l).
Proof.
  unfold ascending. induction l as [|y l IH]; intros H; simpl.
  - repeat constructor.
  - destruct (fst x <=? fst y)%N eqn:E.
    + constructor; [exact H |]. constructor. now apply N.leb_le.
    + apply N.leb_gt in E. inversion H as [|? ? Hs Hh]; subst.
      constructor; [now apply IH |].
      destruct l as [|z l]; simpl.
      * constructor. lia.
      * destruct (fst x <=? fst z)%N; constructor; [lia |].
        inversion Hh; subst. assumption.
Qed.

Lemma sortByIndex_sorted (l : list (N * JSString)) : ascending (sortByIndex l).
Proof.
  induction l as [|x l IH]; simpl; [constructor | now apply insertByIndex_sorted].
Qed.

Lemma indexed_in (n : N) (k : JSString) (ks : list JSString) :
  In (n, k) (indexed ks) <-> In k ks /\ arrayIndex k = Some n.
Proof.
  unfold indexed. rewrite in_flat_map. split.
  - intros (k' & Hk & H). destruct (arrayIndex k') eqn:E; simpl in H; [| tauto].
    destruct H as [H | []]. injection H as -> ->. auto.
  - intros [Hk E]. exists k. split; [exact Hk |]. rewrite E. now left.
Qed.

Lemma indexed_none (ks : list JSString) :
  forallb (fun k => negb (isArrayIndex k)) ks = true -> indexed ks = [].
Proof.
  induction ks as [|k ks IH]; [reflexivity |].
  simpl. intros H. apply andb_prop in H as [Hk H].
  unfold isArrayIndex in Hk. destruct (arrayIndex k); [discriminate |].
  simpl. now apply IH.
Qed.

Lemma keyOrder_in (k : JSString) (ks : list JSString) :
  In k (keyOrder ks) <-> In k ks.
Proof.
  unfold keyOrder. rewrite in_app_iff, filter_In, in_map_iff. split.
  - intros [((n, k') & E & H) | [H _]]; [| exact H].
    simpl in E; subst k'. apply sortByIndex_in, indexed_in in H. tauto.
  - intros H. destruct (arrayIndex k) as [n|] eqn:E.
    + left. exists (n, k). split; [reflexivity |].
      apply sortByIndex_in, indexed_in. auto.
    + right. split; [exact H |]. unfold isArrayIndex. now rewrite E.
Qed.

Lemma keyOrder_others (ks : list JSString) :
  filter (fun k => negb (isArrayIndex k)) (keyOrder ks) =
  filter (fun k => negb (isArrayIndex k)) ks.
Proof.
  unfold keyOrder. rewrite filter_app, filter_filter.
  assert (E : filter (fun k => negb (isArrayIndex k))
                (map snd (sortByIndex (indexed ks))) = []).
  { assert (H : forall p, In p (sortByIndex (indexed ks)) ->
                          isArrayIndex (snd p) = true).
    { intros [n k] H. apply sortByIndex_in, indexed_in in H as [_ H].
      unfold isArrayIndex. simpl. now rewrite H. }
    induction (sortByIndex (indexed ks)) as [|p l IH]; [reflexivity |].
    simpl. rewrite (H p) by now left. simpl. apply IH.
    intros q Hq. apply H. now right. }
  rewrite E. simpl. apply filter_ext. intros k. apply andb_diag.
Qed.

Lemma keyOrder_plain (ks : list JSString) :
  forallb (fun k => negb (isArrayIndex k)) ks = true -> keyOrder ks = ks.
Proof.
  intros H. unfold keyOrder. rewrite (indexed_none _ H). simpl.
  induction ks as [|k ks IH]; [reflexivity |].
  simpl in *. apply andb_prop in H as [Hk H]. rewrite Hk. now rewrite IH.
Qed.

Lemma entries_own (o : TurboProjects) (k : JSString) (g : list ProjectInfo) :
  NoDup (map fst o) -> (In (k, g) (entries o) <-> In (k, g) o).
Proof.
  intros Hnd. unfold entries, keys. rewrite in_map_iff. split.
  - intros (k' & E & Hk). injection E as E1 E2. subst k' g.
    apply (proj1 (keyOrder_in _ _)) in Hk. unfold groupOf.
    destruct (getOwn k o) as [g|] eqn:Eg.
    + now apply getOwn_in.
    + apply getOwn_none in Eg. tauto.
  - intros H. exists k. split.
    + unfold groupOf. now rewrite (in_getOwn _ _ _ Hnd H).
    + apply keyOrder_in. change k with (fst (k, g)). now apply in_map.
Qed.

Lemma carrying_in (l : JSString) (i : ProjectInfo) (ps : list (JSString * ProjectInfo)) :
  In i (carrying l ps) <-> In (l, i) ps.
Proof.
  unfold carrying. rewrite in_map_iff. split.
  - intros ((l', i') & E & H). simpl in E; subst i'.
    apply filter_In in H as [H E]. simpl in E. apply str_eqb_eq in E. now subst.
  - intros H. exists (l, i). split; [reflexivity |].
    apply filter_In. split; [exact H | apply str_eqb_refl].
Qed.

Lemma carrying_app (l : JSString) (ps qs : list (JSString * ProjectInfo)) :
  carrying l (ps ++ qs) = carrying l ps ++ carrying l qs.
Proof. unfold carrying. now rewrite filter_app, map_app. Qed.

Lemma carrying_placements (w : World) (l : JSString) (packages : list WorkspacePackage) :
  carrying l (placements w packages) =
  flat_map (fun pkg => carrying l (placementsOf w pkg)) packages.
Proof.
  induction packages as [|pkg rest IH]; [reflexivity |].
  unfold placements in *. cbn [flat_map]. now rewrite carrying_app, IH.
Qed.

(** Where a grouped project comes from. *)
Lemma placements_origin (w : World) (packages : list WorkspacePackage)
    (l : JSString) (i : ProjectInfo) :
  In (l, i) (placements w packages) ->
  exists pkg doc,
    In pkg packages
    /\ packageJsonAt w (resolvePackageJson w (itemPath pkg)) = Parsed doc
    /\ i = infoOf (itemPath pkg) doc
    /\ In l (labelsOf (pjBuild doc)).
Proof.
  unfold placements. rewrite in_flat_map. intros (pkg & Hpkg & H).
  unfold placementsOf, infoAt in H.
  destruct (packageJsonAt w (resolvePackageJson w (itemPath pkg))) as [| |doc] eqn:E;
    try contradiction.
  apply in_map_iff in H as (l' & El & Hl). injection El as -> <-.
  exists pkg, doc. auto.
Qed.

Lemma labelled_nonEmpty (l : JSString) (b : option Build) :
  In l (labelsOf b) -> nonEmptyBuild b.
Proof.
  destruct b as [[[|c s]|[|x ls]]|]; simpl; tauto.
Qed.

Lemma result_keys_NoDup (w : World) (packages : list WorkspacePackage) :
  NoDup (map fst (placeAll [] (placements w packages))).
Proof. rewrite firstSeen_keys. apply firstSeen_NoDup. Qed.

(** ** How often a project is in a group *)

Lemma infoAt_path (w : World) (p : JSString) (i : ProjectInfo) :
  infoAt w p = Some i -> path i = p.
Proof.
  unfold infoAt. destruct (packageJsonAt w (resolvePackageJson w p));
    try discriminate. intros H; now injection H as <-.
Qed.

Lemma occurrences_labels (i : ProjectInfo) (l : JSString) (ls : list JSString) :
  occurrences i (carrying l (map (fun l' => (l', i)) ls)) =
  count_occ str_eq_dec ls l.
Proof.
  unfold occurrences, carrying. induction ls as [|x ls IH]; [reflexivity |].
  cbn [map filter fst count_occ].
  destruct (str_eq_dec x l) as [E | E].
  - subst. rewrite str_eqb_refl. cbn [map snd count_occ].
    destruct (info_eq_dec i i); [now rewrite IH | congruence].
  - apply str_eqb_neq in E. now rewrite E.
Qed.

Lemma occurrences_other (i i' : ProjectInfo) (l : JSString) (ls : list JSString) :
  i' <> i -> occurrences i (carrying l (map (fun l' => (l', i')) ls)) = 0.
Proof.
  intros Hne. apply count_occ_not_In. intros H.
  apply (proj1 (carrying_in _ _ _)) in H.
  apply in_map_iff in H as (x & E & _). congruence.
Qed.

Lemma occurrences_placementsOf (w : World) (pkg : WorkspacePackage)
    (i : ProjectInfo) (l : JSString) :
  infoAt w (path i) = Some i ->
  occurrences i (carrying l (placementsOf w pkg)) =
  if str_eq_dec (itemPath pkg) (path i)
  then count_occ str_eq_dec (labelsOf (build i)) l
  else 0.
Proof.
  intros Hi. unfold placementsOf.
  destruct (str_eq_dec (itemPath pkg) (path i)) as [E | E].
  - rewrite E, Hi. apply occurrences_labels.
  - destruct (infoAt w (itemPath pkg)) as [i'|] eqn:Hi'; [| reflexivity].
    apply occurrences_other. intros ->.
    apply infoAt_path in Hi'. congruence.
Qed.

Lemma occurrences_group (w : World) (packages : list WorkspacePackage)
    (i : ProjectInfo) (l : JSString) :
  infoAt w (path i) = Some i ->
  occurrences i (carrying l (placements w packages)) =
  listed (path i) packages * count_occ str_eq_dec (labelsOf (build i)) l.
Proof.
  intros Hi. unfold placements, listed.
  induction packages as [|pkg rest IH]; [reflexivity |].
  cbn [flat_map map]. rewrite carrying_app.
  unfold occurrences in *. rewrite count_occ_app, IH.
  fold (occurrences i (carrying l (placementsOf w pkg))).
  rewrite (occurrences_placementsOf _ _ _ Hi). cbn [count_occ].
  destruct (str_eq_dec (itemPath pkg) (path i)); lia.
Qed.

Lemma listed_in (pkg : WorkspacePackage) (packages : list WorkspacePackage) :
  In pkg packages -> 1 <= listed (itemPath pkg) packages.
Proof.
  intros H. unfold listed.
  assert (Hin : In (itemPath pkg) (map itemPath packages)) by now apply in_map.
  apply (count_occ_In str_eq_dec) in Hin. lia.
Qed.

Lemma group_in_entries (w : World) (packages : list WorkspacePackage)
    (l : JSString) (i : ProjectInfo) :
  In (l, i) (placements w packages) ->
  In (l, groupOf (placeAll [] (placements w packages)) l)
     (entries (placeAll [] (placements w packages))).
Proof.
  intros H. unfold entries. apply in_map_iff. exists l. split; [reflexivity |].
  unfold keys. apply keyOrder_in. rewrite firstSeen_keys.
  apply firstSeen_in. change l with (fst (l, i)). now apply in_map.
Qed.

Lemma placed (w : World) (packages : list WorkspacePackage)
    (pkg : WorkspacePackage) (doc : PackageJson) (l : JSString) :
  In pkg packages ->
  packageJsonAt w (resolvePackageJson w (itemPath pkg)) = Parsed doc ->
  In l (labelsOf (pjBuild doc)) ->
  In (l, infoOf (itemPath pkg) doc) (placements w packages).
Proof.
  intros Hpkg Hdoc Hl. unfold placements. apply in_flat_map.
  exists pkg. split; [exact Hpkg |].
  unfold placementsOf, infoAt. rewrite Hdoc.
  apply in_map_iff. exists l. auto.
Qed.

(** ** main.ts: the claims about the returned mapping *)

Section Returned.

(** One run: the listing that [getTurboPackages] returned and the mapping
    that [getProjects] returned. *)
Variable w : World.
Variable packages : list WorkspacePackage.
Variable result : TurboProjects.
Hypothesis Hlisted : outcomeOf (getTurboPackages w) = Returns packages.
Hypothesis Hreturned : outcomeOf (getProjects w) = Returns result.

(** C2: every project in a group of the returned mapping comes from a
    listed package whose package.json has a non-empty [build] (that names
    the group's label); a listed package whose package.json is absent or
    has no [build] is in no group. *)
Theorem only_buildable_grouped :
  (forall label group i,
      In (label, group) (entries result) -> In i group ->
      exists pkg doc,
        In pkg packages
        /\ packageJsonAt w (resolvePackageJson w (itemPath pkg)) = Parsed doc
        /\ i = infoOf (itemPath pkg) doc
        /\ nonEmptyBuild (pjBuild doc)
        /\ In label (labelsOf (pjBuild doc)))
  /\ (forall pkg, In pkg packages -> lacksBuild w pkg ->
      forall label group i,
        In (label, group) (entries result) -> In i group ->
        path i <> itemPath pkg).
Proof.
  destruct (getProjects_groups _ Hlisted Hreturned) as [Hg _].
  assert (Horigin : forall label group i,
             In (label, group) (entries result) -> In i group ->
             exists pkg doc,
               In pkg packages
               /\ packageJsonAt w (resolvePackageJson w (itemPath pkg)) = Parsed doc
               /\ i = infoOf (itemPath pkg) doc
               /\ nonEmptyBuild (pjBuild doc)
               /\ In label (labelsOf (pjBuild doc))).
  { intros label group i Hin Hi.
    unfold entries in Hin. apply in_map_iff in Hin as (k & E & _).
    injection E as E1 E2. subst k group.
    rewrite Hg in Hi. apply (proj1 (carrying_in _ _ _)) in Hi.
    apply placements_origin in Hi as (pkg & doc & H1 & H2 & H3 & H4).
    exists pkg, doc. repeat split; auto. eapply labelled_nonEmpty; eauto. }
  split; [exact Horigin |].
  intros pkg Hpkg Hlacks label group i Hin Hi Epath.
  destruct (Horigin _ _ _ Hin Hi) as (pkg' & doc & _ & Hdoc & -> & Hb & _).
  simpl in Epath. unfold lacksBuild in Hlacks.
  rewrite <- Epath, Hdoc in Hlacks. rewrite Hlacks in Hb. exact Hb.
Qed.

(** C9: in the returned mapping every label maps to a non-empty sequence
    of projects. *)
Theorem no_empty_group :
  (forall label group, In (label, group) result -> group <> [])
  /\ (forall label group, In (label, group) (entries result) -> group <> []).
Proof.
  destruct (getProjects_returns _ Hreturned) as (listing & _ & E).
  revert E. generalize result. intros r ->. clear.
  rename listing into packages.
  pose proof (result_keys_NoDup w packages) as Hnd.
  assert (Hown : forall label group,
             In (label, group) (placeAll [] (placements w packages)) ->
             group <> []).
  { intros label group Hin.
    pose proof (in_getOwn _ _ _ Hnd Hin) as Hget.
    assert (Hg : groupOf (placeAll [] (placements w packages)) label = group)
      by (unfold groupOf; now rewrite Hget).
    rewrite groupOf_placeAll in Hg. simpl in Hg. subst group.
    assert (Hk : In label (map fst (placeAll [] (placements w packages))))
      by (change label with (fst (label, carrying label (placements w packages)));
          now apply in_map).
    rewrite firstSeen_keys in Hk. apply (proj1 (firstSeen_in _ _)) in Hk.
    apply in_map_iff in Hk as ((l, i) & El & Hi). simpl in El; subst l.
    apply (proj2 (carrying_in _ _ _)) in Hi. intros E. rewrite E in Hi. exact Hi. }
  split; [exact Hown |].
  intros label group Hin. apply (proj1 (entries_own _ _ _ Hnd)) in Hin. eauto.
Qed.

(** C8, as the code has it: a label's group lists the projects that carry
    the label in discovery order; the labels are enumerated with the
    array-index labels first, in ascending order of their index, and the
    other labels after them in the order of their first encounter, so a
    mapping without array-index labels is in first-encounter order. *)
Theorem group_and_label_order :
  (forall label,
      groupOf result label =
      flat_map (fun pkg => carrying label (placementsOf w pkg)) packages)
  /\ keys result =
       map snd (sortByIndex (indexed (encounterOrder w packages)))
         ++ filter (fun k => negb (isArrayIndex k)) (encounterOrder w packages)
  /\ ascending (sortByIndex (indexed (encounterOrder w packages)))
  /\ filter (fun k => negb (isArrayIndex k)) (keys result) =
       filter (fun k => negb (isArrayIndex k)) (encounterOrder w packages)
  /\ (forallb (fun k => negb (isArrayIndex k)) (encounterOrder w packages) = true ->
      keys result = encounterOrder w packages).
Proof.
  destruct (getProjects_groups _ Hlisted Hreturned) as [Hg Hk].
  unfold keys. rewrite Hk. repeat split.
  - intros label. now rewrite Hg, carrying_placements.
  - apply sortByIndex_sorted.
  - apply keyOrder_others.
  - apply keyOrder_plain.
Qed.

(** X27: in a run that returns a mapping, a listed package whose [build]
    is the array [a, b] is in group [a] and in group [b] of the mapping,
    as one and the same record (path, name, version, identifier, build);
    with two different labels and the package listed once, it is there
    exactly once each. *)
Theorem fan_out (pkg : WorkspacePackage) (doc : PackageJson) (a b : JSString) :
  In pkg packages ->
  packageJsonAt w (resolvePackageJson w (itemPath pkg)) = Parsed doc ->
  pjBuild doc = Some (Many [a; b]) ->
  In (a, groupOf result a) (entries result)
  /\ In (b, groupOf result b) (entries result)
  /\ In (infoOf (itemPath pkg) doc) (groupOf result a)
  /\ In (infoOf (itemPath pkg) doc) (groupOf result b)
  /\ (a <> b -> listed (itemPath pkg) packages = 1 ->
      occurrences (infoOf (itemPath pkg) doc) (groupOf result a) = 1
      /\ occurrences (infoOf (itemPath pkg) doc) (groupOf result b) = 1).
Proof.
  intros Hpkg Hdoc Hb.
  pose proof (getProjects_groups _ Hlisted Hreturned) as [Hg _].
  destruct (getProjects_returns _ Hreturned) as (packages' & Hp' & Hr).
  assert (packages' = packages) by congruence. subst packages'.
  assert (Ha : In (a, infoOf (itemPath pkg) doc) (placements w packages))
    by (eapply placed; eauto; rewrite Hb; simpl; auto).
  assert (Hb' : In (b, infoOf (itemPath pkg) doc) (placements w packages))
    by (eapply placed; eauto; rewrite Hb; simpl; auto).
  assert (Hi : infoAt w (path (infoOf (itemPath pkg) doc))
               = Some (infoOf (itemPath pkg) doc))
    by (unfold infoAt; simpl; now rewrite Hdoc).
  split; [rewrite Hr; eapply group_in_entries; eauto |].
  split; [rewrite Hr; eapply group_in_entries; eauto |].
  rewrite !Hg.
  split; [now apply carrying_in |].
  split; [now apply carrying_in |].
  intros Hne Hone. rewrite !(occurrences_group _ _ _ Hi).
  cbn [path infoOf build]. rewrite Hone, Hb. cbn [labelsOf count_occ].
  destruct (str_eq_dec a a), (str_eq_dec b b), (str_eq_dec a b),
    (str_eq_dec b a); try congruence. auto.
Qed.

(** X28: in a run that returns a mapping, labels are not deduplicated.
    A project is in the group of a label once for every occurrence of the
    label in its [build] array (and that for every time its package is
    listed), so [build: [a, a]] puts it into group [a] twice. *)
Theorem repeated_label_repeats (pkg : WorkspacePackage) (doc : PackageJson)
    (labels : list JSString) (label : JSString) :
  In pkg packages ->
  packageJsonAt w (resolvePackageJson w (itemPath pkg)) = Parsed doc ->
  pjBuild doc = Some (Many labels) ->
  occurrences (infoOf (itemPath pkg) doc) (groupOf result label) =
    listed (itemPath pkg) packages * count_occ str_eq_dec labels label
  /\ 1 <= listed (itemPath pkg) packages.
Proof.
  intros Hpkg Hdoc Hb.
  pose proof (getProjects_groups _ Hlisted Hreturned) as [Hg _].
  assert (Hi : infoAt w (path (infoOf (itemPath pkg) doc))
               = Some (infoOf (itemPath pkg) doc))
    by (unfold infoAt; simpl; now rewrite Hdoc).
  split; [| now apply listed_in].
  rewrite Hg, (occurrences_group _ _ _ Hi).
  cbn [path infoOf build]. now rewrite Hb.
Qed.

End Returned.

Lemma only_buildable_grouped_witness :
  (forall label group i,
      In (label, group) (entries Examples.dockerOnlyResult) -> In i group ->
      exists pkg doc,
        In pkg Examples.dockerOnlyPackages
        /\ packageJsonAt Examples.dockerOnly
             (resolvePackageJson Examples.dockerOnly (itemPath pkg)) = Parsed doc
        /\ i = infoOf (itemPath pkg) doc
        /\ nonEmptyBuild (pjBuild doc)
        /\ In label (labelsOf (pjBuild doc)))
  /\ (forall pkg, In pkg Examples.dockerOnlyPackages ->
      lacksBuild Examples.dockerOnly pkg ->
      forall label group i,
        In (label, group) (entries Examples.dockerOnlyResult) -> In i group ->
        path i <> itemPath pkg).
Proof.
  apply (@only_buildable_grouped Examples.dockerOnly);
    vm_compute; reflexivity.
Defined.

Lemma no_empty_group_witness :
  (forall label group, In (label, group) Examples.fanOutResult -> group <> [])
  /\ (forall label group,
         In (label, group) (entries Examples.fanOutResult) -> group <> []).
Proof.
  apply (@no_empty_group Examples.fanOut). vm_compute; reflexivity.
Defined.

Lemma group_and_label_order_witness :
  (forall label,
      groupOf Examples.fanOutResult label =
      flat_map (fun pkg => carrying label (placementsOf Examples.fanOut pkg))
        Examples.fanOutPackages)
  /\ keys Examples.fanOutResult = [js "npm"; js "docker"].
Proof.
  pose proof (@group_and_label_order Examples.fanOut Examples.fanOutPackages
                Examples.fanOutResult) as H.
  destruct H as (Hg & _ & _ & _ & Hk); try (vm_compute; reflexivity).
  split; [exact Hg |]. apply Hk. vm_compute; reflexivity.
Defined.

(** C8 as stated fails: label "b" is met before label "1", and the
    returned mapping lists "1" before "b". *)
Lemma label_order_counterexample :
  ~ (forall w packages result,
        outcomeOf (getTurboPackages w) = Returns packages ->
        outcomeOf (getProjects w) = Returns result ->
        keys result = encounterOrder w packages).
Proof.
  intros H.
  specialize (H Examples.numbered Examples.numberedPackages Examples.numberedResult).
  assert (E : keys Examples.numberedResult =
              encounterOrder Examples.numbered Examples.numberedPackages)
    by (apply H; vm_compute; reflexivity).
  vm_compute in E. discriminate E.
Qed.

Lemma fan_out_witness :
  In (js "npm", groupOf Examples.fanOutResult (js "npm"))
     (entries Examples.fanOutResult)
  /\ In (js "docker", groupOf Examples.fanOutResult (js "docker"))
        (entries Examples.fanOutResult)
  /\ occurrences (infoOf (js "./lib") Examples.fanOutDoc)
       (groupOf Examples.fanOutResult (js "npm")) = 1
  /\ occurrences (infoOf (js "./lib") Examples.fanOutDoc)
       (groupOf Examples.fanOutResult (js "docker")) = 1.
Proof.
  pose proof (@fan_out Examples.fanOut Examples.fanOutPackages
                Examples.fanOutResult
                ltac:(vm_compute; reflexivity) ltac:(vm_compute; reflexivity)
                (Examples.item "@My/Lib!!" "./lib")
                Examples.fanOutDoc (js "npm") (js "docker")) as H.
  destruct H as (H1 & H2 & _ & _ & H3);
    try (vm_compute; reflexivity); [simpl; auto |].
  destruct H3 as [H3 H4]; [discriminate | vm_compute; reflexivity |].
  auto.
Defined.

Lemma repeated_label_repeats_witness :
  occurrences (infoOf (js "./a") Examples.twiceDoc)
    (groupOf Examples.twiceResult (js "a")) = 1 * 2
  /\ 1 <= 1.
Proof.
  exact (@repeated_label_repeats Examples.twice Examples.twicePackages
           Examples.twiceResult
           ltac:(vm_compute; reflexivity) ltac:(vm_compute; reflexivity)
           (Examples.item "@x/a" "./a")
           Examples.twiceDoc [js "a"; js "a"] (js "a")
           ltac:(simpl; auto) ltac:(vm_compute; reflexivity)
           ltac:(reflexivity)).
Defined.

(** ** When the pipeline returns *)

Lemma addToGroup_plain msg (o : TurboProjects) (l : JSString) (i : ProjectInfo) :
  isPrototypeKey l = false -> addToGroup msg o l i = Returns (place o l i).
Proof.
  intros Hl. unfold addToGroup, place, groupOf, get. rewrite Hl.
  destruct (getOwn l o) as [g|] eqn:E.
  - now rewrite E.
  - now rewrite getOwn_setOwn, str_eqb_refl, setOwn_setOwn.
Qed.

Lemma addToGroups_plain (ls : list JSString) (o : TurboProjects) (i : ProjectInfo) :
  (forall l, In l ls -> isPrototypeKey l = false) ->
  addToGroups o ls i = Returns (placeAll o (map (fun l => (l, i)) ls)).
Proof.
  revert o; induction ls as [|l ls IH]; intros o Hls; [reflexivity |].
  cbn [addToGroups]. rewrite addToGroup_plain by (apply Hls; now left).
  rewrite IH by (intros; apply Hls; now right). reflexivity.
Qed.

Lemma visit_plain (w : World) (o : TurboProjects) (pkg : WorkspacePackage) :
  packageJsonAt w (resolvePackageJson w (itemPath pkg)) <> Unreadable ->
  (forall l i, In (l, i) (placementsOf w pkg) -> isPrototypeKey l = false) ->
  outcomeOf (visit w o pkg) = Returns (placeAll o (placementsOf w pkg)).
Proof.
  intros Hfile Hls. unfold visit.
  pose proof (getPackageInfo_outcome w (itemPath pkg)) as Hinfo.
  unfold placementsOf, infoAt in *.
  destruct (packageJsonAt w (resolvePackageJson w (itemPath pkg))) as [| |doc];
    [| congruence |]; rewrite (outcome_bind _ _ Hinfo).
  - reflexivity.
  - cbn [infoOf build labelsOf] in *.
    destruct (pjBuild doc) as [[label|labels]|]; cbn [labelsOf] in *.
    + destruct (truthy label); [| reflexivity].
      cbn [lift outcomeOf snd]. apply addToGroup_plain.
      apply (Hls label (infoOf (itemPath pkg) doc)). now left.
    + cbn [lift outcomeOf snd]. apply addToGroups_plain.
      intros l Hl. apply (Hls l (infoOf (itemPath pkg) doc)).
      apply in_map_iff. eauto.
    + reflexivity.
Qed.

Lemma forEachPackage_plain (w : World) (packages : list WorkspacePackage)
    (o : TurboProjects) :
  (forall pkg, In pkg packages ->
     packageJsonAt w (resolvePackageJson w (itemPath pkg)) <> Unreadable) ->
  (forall l i, In (l, i) (placements w packages) -> isPrototypeKey l = false) ->
  outcomeOf (forEachPackage w o packages) =
  Returns (placeAll o (placements w packages)).
Proof.
  revert o; induction packages as [|pkg rest IH]; intros o Hfiles Hls;
    [reflexivity |].
  cbn [forEachPackage]. unfold placements in *. cbn [flat_map] in *.
  rewrite (outcome_bind _ _ (visit_plain w o pkg
             (Hfiles pkg (or_introl eq_refl))
             (fun l i H => Hls l i (proj2 (in_app_iff _ _ _) (or_introl H))))).
  rewrite placeAll_app. apply IH.
  - intros p Hp. apply Hfiles. now right.
  - intros l i H. apply (Hls l i). apply in_app_iff. now right.
Qed.


(** A label that names a member of [Object.prototype] reads as that
    member, which has no [push]: the run fails. *)
Example inherited_label_fails :
  snd (run Examples.inheritedLabel) =
  SetFailed (crossMark ++ js " Action failed: Analysis failed: "
               ++ js "result[packageInfo.build].push is not a function").
Proof. vm_compute. reflexivity. Qed.

(** Scenario 4: one group, "docker", with the one package that has a build. *)
Example scenario_docker_only :
  snd (run Examples.dockerOnly) = SetOutput Examples.dockerOnlyResult.
Proof. vm_compute. reflexivity. Qed.

(** Scenario 5: the package is under "npm" and under "docker". *)
Example scenario_fan_out :
  snd (run Examples.fanOut) = SetOutput Examples.fanOutResult
  /\ identifier (infoOf (js "./lib") Examples.fanOutDoc) = Some (js "my-lib").
Proof. split; vm_compute; reflexivity. Qed.

(** Non-ASCII code units are separators like any other non-word unit:
    "Café Bar" (with U+00E9) gives "caf-bar". *)
Example identifier_non_ascii :
  identifierOf (js "Caf" ++ [233%N] ++ js " Bar") = js "caf-bar".
Proof. reflexivity. Qed.


Lemma nonzero_exit_outcome_witness :
  outcomeOf (getTurboPackages Examples.boom) = Throws retrievalFailure.
Proof.
  apply (@nonzero_exit_outcome Examples.boom (js "2.5.8")
           {| exitCode := 1; stdout := js ""; stderr := js "boom" |});
    vm_compute; try reflexivity; discriminate.
Defined.

(* ================================================================= *)
(** * Further properties *)

(** ** package.ts: what an identifier looks like *)

Lemma separated_units (e : bool) (s : JSString) :
  separated isLowWord e s = true -> forallb isIdentifierUnit s = true.
Proof.
  induction s as [|c r IH]; [reflexivity |].
  intros H. pose proof (separated_tail _ _ _ _ H) as Hr.
  cbn [separated] in H. apply andb_prop in H as [H _].
  cbn [forallb]. rewrite (IH Hr), andb_true_r. unfold isIdentifierUnit.
  destruct (isDash c); [apply orb_true_r | now rewrite H].
Qed.

Lemma separated_no_adjacent (e : bool) (s : JSString) :
  separated isLowWord e s = true -> adjacentDashes s = false.
Proof.
  induction s as [|c r IH]; [reflexivity |].
  intros H. pose proof (separated_tail _ _ _ _ H) as Hr.
  cbn [separated] in H. apply andb_prop in H as [H _].
  cbn [adjacentDashes]. rewrite (IH Hr), orb_false_r.
  destruct (isDash c); [| reflexivity].
  destruct r as [|d r']; [reflexivity |].
  simpl. now rewrite (lowWord_not_dash _ H).
Qed.

Lemma startsWithDash_app (s t : JSString) :
  s <> [] -> startsWithDash (s ++ t) = startsWithDash s.
Proof. destruct s; [congruence | reflexivity]. Qed.

Lemma separated_end (ok : N -> bool) (s : JSString) :
  separated ok false s = true -> endsWithDash s = false.
Proof.
  unfold endsWithDash. induction s as [|c r IH]; [reflexivity |].
  intros H. pose proof (separated_tail _ _ _ _ H) as Hr.
  cbn [separated] in H. apply andb_prop in H as [H _].
  cbn [rev]. destruct r as [|d r'].
  - simpl. destruct (isDash c); [discriminate | reflexivity].
  - rewrite startsWithDash_app; [now apply IH |].
    cbn [rev]. intros E. apply app_eq_nil in E as [_ E]. discriminate.
Qed.

(** X4: an identifier is made of [a-z0-9_] and dashes only; it neither
    starts nor ends with a dash, and no two dashes are side by side. *)
Theorem identifier_shape (s : JSString) :
  forallb isIdentifierUnit (identifierOf s) = true
  /\ startsWithDash (identifierOf s) = false
  /\ endsWithDash (identifierOf s) = false
  /\ adjacentDashes (identifierOf s) = false.
Proof.
  rewrite identifier_refines.
  pose proof (normalize_canonical s) as H. unfold canonical in H.
  apply andb_prop in H as [Hs Hd]. apply negb_true_iff in Hd.
  repeat split.
  - eapply separated_units; eauto.
  - exact Hd.
  - eapply separated_end; eauto.
  - eapply separated_no_adjacent; eauto.
Qed.

Lemma word_lower (c : N) : isWord (lowerUnit c) = isWord c.
Proof. classes. Qed.

Lemma filter_word_lower (s : JSString) :
  filter isWord (toLowerCase s) = toLowerCase (filter isWord s).
Proof.
  unfold toLowerCase. induction s as [|c r IH]; [reflexivity |].
  cbn [map filter]. rewrite word_lower.
  destruct (isWord c); cbn [map]; now rewrite IH.
Qed.

Lemma filter_word_dropWhile (p : N -> bool) (s : JSString) :
  (forall c, p c = true -> isWord c = false) ->
  filter isWord (dropWhile p s) = filter isWord s.
Proof.
  intros Hp. induction s as [|c r IH]; [reflexivity |].
  cbn [dropWhile]. destruct (p c) eqn:E; [| reflexivity].
  cbn [filter]. now rewrite (Hp _ E).
Qed.

Lemma filter_word_dropWhileEnd (s : JSString) :
  filter isWord (dropWhileEnd isDash s) = filter isWord s.
Proof.
  induction s as [|c r IH]; [reflexivity |].
  cbn [dropWhileEnd filter]. rewrite <- IH.
  destruct (dropWhileEnd isDash r) as [|d t]; [| reflexivity].
  destruct (isDash c) eqn:E.
  - now rewrite (dash_not_word _ E).
  - cbn [filter]. reflexivity.
Qed.

Lemma nonWord_not_word (c : N) : isNonWord c = true -> isWord c = false.
Proof. unfold isNonWord. now destruct (isWord c). Qed.

Lemma filter_word_runs (s : JSString) :
  filter isWord (flat_map replaceRun (runs s)) = filter isWord s.
Proof.
  remember (List.length s) as n eqn:Hn.
  assert (Hle : List.length s <= n) by lia. clear Hn.
  revert s Hle; induction n as [|n IH]; intros s Hle.
  - destruct s; [reflexivity | simpl in Hle; lia].
  - destruct s as [|c r]; [reflexivity |].
    rewrite runs_step. simpl in Hle. cbn [filter].
    destruct (isWord c) eqn:Hc.
    + cbn [filter]. rewrite Hc. f_equal. apply IH. lia.
    + cbn [filter]. change (isWord dash) with false. cbv iota.
      rewrite IH by (pose proof (dropWhile_length isNonWord r); lia).
      apply filter_word_dropWhile, nonWord_not_word.
Qed.

Lemma normalize_word_units (s : JSString) :
  filter isWord (normalize s) = toLowerCase (filter isWord s).
Proof.
  unfold normalize.
  rewrite filter_word_dropWhileEnd,
    (filter_word_dropWhile isDash _ dash_not_word),
    filter_word_lower, filter_word_runs.
  reflexivity.
Qed.

(** X5: the identifier keeps every word character of the name, in order
    and in lowercase; whatever else it holds are dashes. *)
Theorem identifier_keeps_word_characters (s : JSString) :
  filter isWord (identifierOf s) = toLowerCase (filter isWord s)
  /\ forallb isDash (filter isNonWord (identifierOf s)) = true.
Proof.
  split.
  - rewrite identifier_refines. apply normalize_word_units.
  - rewrite identifier_refines.
    pose proof (normalize_canonical s) as H. unfold canonical in H.
    apply andb_prop in H as [Hs _].
    pose proof (separated_units _ _ Hs) as Hu. clear Hs.
    revert Hu. generalize (normalize s). intros t.
    induction t as [|c r IH]; intros Hu; [reflexivity |].
    cbn [forallb] in Hu. apply andb_prop in Hu as [Hc Hr].
    cbn [filter]. destruct (isNonWord c) eqn:E; [| now apply IH].
    cbn [forallb]. rewrite (IH Hr), andb_true_r.
    unfold isIdentifierUnit in Hc. apply orb_prop in Hc as [Hc | Hc]; [| exact Hc].
    apply lowWord_word in Hc. apply nonWord_not_word in E. congruence.
Qed.

Lemma forallb_filter_id (p : N -> bool) (s : JSString) :
  forallb p s = true -> filter p s = s.
Proof.
  induction s as [|c r IH]; [reflexivity |].
  simpl. intros H. apply andb_prop in H as [Hc Hr]. now rewrite Hc, IH.
Qed.

Lemma filter_word_nil (s : JSString) :
  filter isWord s = [] -> forallb isNonWord s = true.
Proof.
  induction s as [|c r IH]; [reflexivity |].
  simpl. unfold isNonWord at 1. destruct (isWord c); [discriminate |]. exact IH.
Qed.

(** X6: the identifier is the empty string exactly when the name holds no
    word character. *)
Theorem identifier_empty_iff (s : JSString) :
  identifierOf s = [] <-> forallb isNonWord s = true.
Proof.
  rewrite identifier_refines. split.
  - intros H. pose proof (normalize_word_units s) as E. rewrite H in E.
    simpl in E. symmetry in E. unfold toLowerCase in E.
    apply map_eq_nil in E. now apply filter_word_nil.
  - intros H. rewrite <- (forallb_filter_id _ _ H). apply normalize_symbols.
Qed.

Lemma dropWhileEnd_length (p : N -> bool) (s : JSString) :
  List.length (dropWhileEnd p s) <= List.length s.
Proof.
  induction s as [|c r IH]; simpl; [lia |].
  destruct (dropWhileEnd p r); [destruct (p c) |]; simpl in *; lia.
Qed.

Lemma runs_length (s : JSString) :
  List.length (flat_map replaceRun (runs s)) <= List.length s.
Proof.
  remember (List.length s) as n eqn:Hn.
  assert (Hle : List.length s <= n) by lia. clear Hn.
  revert s Hle; induction n as [|n IH]; intros s Hle.
  - destruct s; [simpl; lia | simpl in Hle; lia].
  - destruct s as [|c r]; [simpl; lia |].
    rewrite runs_step. simpl in Hle.
    pose proof (dropWhile_length isNonWord r) as Hd.
    destruct (isWord c); cbn [List.length].
    + specialize (IH r). lia.
    + specialize (IH (dropWhile isNonWord r)). lia.
Qed.

(** X7: the identifier is never longer than the name. *)
Theorem identifier_length (s : JSString) :
  List.length (identifierOf s) <= List.length s.
Proof.
  rewrite identifier_refines. unfold normalize, toLowerCase.
  pose proof (dropWhileEnd_length isDash
                (dropWhile isDash (map lowerUnit (flat_map replaceRun (runs s))))).
  pose proof (dropWhile_length isDash (map lowerUnit (flat_map replaceRun (runs s)))).
  pose proof (runs_length s). rewrite length_map in *. lia.
Qed.

(** ** turbo.ts: the JSON object inside the output of [turbo ls] *)

Lemma throughLastClose_none (s : JSString) :
  throughLastClose s = None <-> ~ In closeBrace s.
Proof.
  induction s as [|c r IH]; simpl; [tauto |].
  destruct (throughLastClose r) as [t|].
  - split; [discriminate |]. intros H. exfalso.
    assert (Hr : ~ In closeBrace r) by tauto.
    apply IH in Hr. discriminate.
  - destruct (N.eqb_spec c closeBrace) as [E | E].
    + split; [discriminate | intros H; exfalso; apply H; now left].
    + split; [| reflexivity]. intros _ [H | H]; [congruence |].
      now apply (proj1 IH).
Qed.

Lemma throughLastClose_some (s t : JSString) :
  throughLastClose s = Some t ->
  exists mid post,
    t = mid ++ [closeBrace] /\ s = t ++ post /\ ~ In closeBrace post.
Proof.
  revert t; induction s as [|c r IH]; intros t; simpl; [discriminate |].
  destruct (throughLastClose r) as [t'|] eqn:E.
  - intros H; injection H as <-.
    destruct (IH _ eq_refl) as (mid & post & -> & Hr & Hp).
    exists (c :: mid), post. repeat split; auto. simpl. now rewrite Hr at 1.
  - destruct (N.eqb_spec c closeBrace) as [-> | Hc]; [| discriminate].
    intros H; injection H as <-.
    exists [], r. repeat split. now apply throughLastClose_none.
Qed.

Lemma matchBraces_some (s json : JSString) :
  matchBraces s = Some json ->
  exists pre mid post,
    s = pre ++ json ++ post
    /\ json = openBrace :: mid ++ [closeBrace]
    /\ ~ In openBrace pre
    /\ ~ In closeBrace post.
Proof.
  revert json; induction s as [|c r IH]; intros json; simpl; [discriminate |].
  destruct (N.eqb_spec c openBrace) as [-> | Hc].
  - destruct (throughLastClose r) as [t|] eqn:E; [| discriminate].
    intros H; injection H as <-.
    destruct (throughLastClose_some _ E) as (mid & post & -> & Hr & Hp).
    exists [], mid, post. repeat split; auto. simpl. now rewrite Hr at 1.
  - intros H. destruct (IH _ H) as (pre & mid & post & -> & Hj & Hpre & Hpost).
    exists (c :: pre), mid, post. repeat split; auto.
    intros [E | E]; [congruence | contradiction].
Qed.

(** X8: what [match(/\{[\s\S]*\}/)] extracts is a piece of the output that
    runs from its first opening brace to its last closing brace. *)
Theorem matchBraces_span (s json : JSString) :
  matchBraces s = Some json ->
  exists pre mid post,
    s = pre ++ json ++ post
    /\ json = openBrace :: mid ++ [closeBrace]
    /\ ~ In openBrace pre
    /\ ~ In closeBrace post.
Proof.
  intros H. destruct (matchBraces_some _ H) as (pre & mid & post & Hs & Hj & Hp).
  exists pre, mid, post. auto.
Qed.

Lemma matchBraces_span_witness :
  exists pre mid post,
    js "turbo 2.5.8 {} done" = pre ++ js "{}" ++ post
    /\ js "{}" = openBrace :: mid ++ [closeBrace]
    /\ ~ In openBrace pre
    /\ ~ In closeBrace post.
Proof.
  exact (@matchBraces_span (js "turbo 2.5.8 {} done") (js "{}") eq_refl).
Defined.

Lemma matchBraces_found (pre rest : JSString) :
  In closeBrace rest -> matchBraces (pre ++ openBrace :: rest) <> None.
Proof.
  intros Hin. induction pre as [|c pre IH]; simpl.
  - destruct (throughLastClose rest) eqn:E; [discriminate |].
    apply throughLastClose_none in E. contradiction.
  - destruct (N.eqb_spec c openBrace) as [-> | Hc]; [| exact IH].
    destruct (throughLastClose (pre ++ openBrace :: rest)) eqn:E; [discriminate |].
    apply throughLastClose_none in E. exfalso. apply E.
    apply in_app_iff. right. right. exact Hin.
Qed.

(** X9: nothing is extracted exactly when the output holds no opening
    brace with a closing brace after it. *)
Theorem matchBraces_none_iff (s : JSString) :
  matchBraces s = None <-> ~ hasBraceSpan s.
Proof.
  split.
  - intros H (pre & mid & post & ->).
    apply (@matchBraces_found pre (mid ++ closeBrace :: post)); [| exact H].
    apply in_app_iff. right. now left.
  - intros H. destruct (matchBraces s) as [json|] eqn:E; [| reflexivity].
    exfalso. apply H.
    destruct (matchBraces_some _ E) as (pre & mid & post & -> & -> & _).
    exists pre, mid, post. simpl. now rewrite <- app_assoc.
Qed.

Lemma throughLastClose_whole (mid : JSString) :
  throughLastClose (mid ++ [closeBrace]) = Some (mid ++ [closeBrace]).
Proof.
  induction mid as [|c mid IH]; [reflexivity |].
  simpl. now rewrite IH.
Qed.

(** X10: an output that is one JSON object and nothing else is passed to
    the parser unchanged, nested braces included. *)
Theorem matchBraces_clean (mid : JSString) :
  matchBraces (openBrace :: mid ++ [closeBrace]) =
  Some (openBrace :: mid ++ [closeBrace]).
Proof.
  simpl. now rewrite throughLastClose_whole.
Qed.

(** ** turbo.ts: how [getTurboPackages] ends *)

(** X11: [getTurboPackages] returns a listing exactly when a non-empty
    version is resolved, [turbo ls] exits with code 0, its output holds a
    brace span and the parser reads the items out of that span; the
    listing is then those items, as parsed. *)
Theorem getTurboPackages_returns_iff (w : World) (items : list WorkspacePackage) :
  outcomeOf (getTurboPackages w) = Returns items <->
  exists v output json,
    outcomeOf (getTurboVersion w) = Returns (Some v)
    /\ truthy v = true
    /\ listPackages w v = Returns output
    /\ exitCode output = 0%N
    /\ matchBraces (stdout output) = Some json
    /\ parseItems w json = Some items.
Proof.
  rewrite getTurboPackages_outcome. split.
  - destruct (outcomeOf (getTurboVersion w)) as [[[|c v]|]|e]; try discriminate.
    destruct (listPackages w (c :: v)) as [output|e] eqn:Hls; [| discriminate].
    destruct (exitCode output =? 0)%N eqn:Hexit; [| discriminate].
    destruct (matchBraces (stdout output)) as [json|] eqn:Hj; [| discriminate].
    destruct (parseItems w json) as [items'|] eqn:Hp; [| discriminate].
    cbn [negb]. intros H; injection H as <-.
    exists (c :: v), output, json. apply N.eqb_eq in Hexit. auto 10.
  - intros (v & output & json & -> & Hv & -> & Hexit & -> & ->).
    destruct v; [discriminate |]. rewrite Hexit. reflexivity.
Qed.

(** X12: [getTurboPackages] fails with one of three errors only: the one
    of [getTurboVersion], "not installed", or the one of its own [catch];
    the messages built inside its [try] never reach a caller. *)
Theorem getTurboPackages_errors (w : World) (e : JSError) :
  outcomeOf (getTurboPackages w) = Throws e ->
  e = rootFailure \/ e = notInstalled \/ e = retrievalFailure.
Proof.
  rewrite getTurboPackages_outcome.
  pose proof (getTurboVersion_cases w) as Hv.
  destruct (rootPackageJson w) as [| |[|doc]]; rewrite Hv; cbn [outcomeOf snd].
  - intros H; injection H as <-. auto.
  - intros H; injection H as <-. auto.
  - intros H; injection H as <-. auto.
  - destruct (orElse _ _) as [[|c v]|].
    + intros H; injection H as <-. auto.
    + destruct (listPackages w (c :: v)) as [output|e'].
      * destruct (exitCode output =? 0)%N; cbn [negb].
        -- destruct (matchBraces (stdout output)) as [json|].
           ++ destruct (parseItems w json); [discriminate |].
              intros H; injection H as <-. auto.
           ++ intros H; injection H as <-. auto.
        -- intros H; injection H as <-. auto.
      * intros H; injection H as <-. auto.
    + intros H; injection H as <-. auto.
Qed.

Lemma getTurboPackages_errors_witness :
  retrievalFailure = rootFailure \/ retrievalFailure = notInstalled
  \/ retrievalFailure = retrievalFailure.
Proof.
  apply (@getTurboPackages_errors Cases.noJson). vm_compute; reflexivity.
Defined.

(** X13: the cache warm-up does not change how the listing ends: the
    revision with the cache and the revision without it give the same
    outcome from the same answers of the collaborators. *)
Theorem cache_is_transparent (w : World) :
  outcomeOf (getTurboPackages w) = outcomeOf (Legacy.getTurboPackages w).
Proof.
  rewrite getTurboPackages_outcome. unfold Legacy.getTurboPackages.
  destruct (outcomeOf (getTurboVersion w)) as [[[|c v]|]|e] eqn:Hv.
  - now rewrite (outcome_bind _ _ Hv).
  - rewrite (outcome_bind _ _ Hv).
    rewrite (outcome_bind (info _) _ (a := tt) eq_refl).
    rewrite outcome_tryCatch_rethrow. unfold listPackages.
    destruct (getExecOutput w _) as [output|e]; [| reflexivity].
    cbn [lift bind outcomeOf snd].
    destruct (exitCode output =? 0)%N; cbn [negb throw snd]; [| reflexivity].
    destruct (matchBraces (stdout output)) as [json|]; [| reflexivity].
    destruct (parseItems w json); reflexivity.
  - now rewrite (outcome_bind _ _ Hv).
  - now rewrite (outcome_bind_throws _ _ Hv).
Qed.

(** ** turbo.ts: what the cache warm-up leaves alone *)

(** X14: when the cache is restored the warm-up logs two lines and
    returns; it neither starts the pre-download nor saves the cache:
    whatever those two would do, the warm-up is the same. *)
Theorem restored_cache_skips_download (w : World) (turboVersion : JSString) :
  restoreHit w turboVersion = true ->
  ensureTurboCache w turboVersion =
    ([lookingMessage turboVersion; restoredMessage turboVersion], Returns tt)
  /\ (forall g f,
        ensureTurboCache (withGetExecOutput g (withSaveCache f w)) turboVersion =
        ensureTurboCache w turboVersion).
Proof.
  unfold restoreHit, ensureTurboCache, cacheKeyOf.
  cbn [restoreCache withGetExecOutput withSaveCache platform arch].
  destruct (restoreCache w _) as [[[|c k]|]|e]; try discriminate.
  intros _. split; [reflexivity |]. intros g f. reflexivity.
Qed.

Lemma restored_cache_skips_download_witness :
  ensureTurboCache Cases.cached (js "2.5.8") =
    ([lookingMessage (js "2.5.8"); restoredMessage (js "2.5.8")], Returns tt)
  /\ (forall g f,
        ensureTurboCache (withGetExecOutput g (withSaveCache f Cases.cached))
          (js "2.5.8") =
        ensureTurboCache Cases.cached (js "2.5.8")).
Proof.
  apply restored_cache_skips_download. vm_compute; reflexivity.
Defined.

(** X15: the cache is saved only after a pre-download that exited with
    code 0: when the pre-download throws or exits with another code, the
    warm-up is the same whatever saving would do. *)
Theorem save_needs_download (w : World) (turboVersion : JSString)
    (f : JSString -> Outcome unit) :
  (forall out, preDownload w turboVersion = Returns out -> exitCode out <> 0%N) ->
  ensureTurboCache (withSaveCache f w) turboVersion =
  ensureTurboCache w turboVersion.
Proof.
  unfold preDownload, ensureTurboCache, cacheKeyOf. intros H.
  cbn [restoreCache getExecOutput withSaveCache platform arch saveCache].
  destruct (restoreCache w _) as [[[|c k]|]|e0];
    try reflexivity;
    (destruct (getExecOutput w [atVersion turboVersion; js "--version"])
       as [out|e1]; [| reflexivity];
     specialize (H out eq_refl); apply N.eqb_neq in H;
     cbn [bind tryCatch info warning ret lift throw fst snd app];
     rewrite H; reflexivity).
Qed.

Lemma save_needs_download_witness :
  ensureTurboCache
    (withSaveCache (fun _ => Throws (Examples.failing "save")) Cases.downloadFails)
    (js "2.5.8") =
  ensureTurboCache Cases.downloadFails (js "2.5.8").
Proof.
  apply save_needs_download.
  intros out H. vm_compute in H. injection H as <-. discriminate.
Defined.

(** ** main.ts: how a run ends *)

Lemma getProjects_plain (w : World) (packages : list WorkspacePackage) :
  outcomeOf (getTurboPackages w) = Returns packages ->
  (forall pkg, In pkg packages ->
     packageJsonAt w (resolvePackageJson w (itemPath pkg)) <> Unreadable) ->
  (forall l i, In (l, i) (placements w packages) -> isPrototypeKey l = false) ->
  outcomeOf (getProjects w) = Returns (placeAll [] (placements w packages)).
Proof.
  intros Hp Hfiles Hls. unfold getProjects.
  rewrite outcome_tryCatch_rethrow_with.
  rewrite (outcome_bind _ _ Hp).
  rewrite (outcome_bind (info _) _ (a := tt) eq_refl).
  rewrite (outcome_bind _ _ (forEachPackage_plain w packages [] Hfiles Hls)).
  destruct (Nat.eqb _ 0).
  - now rewrite (outcome_bind (info _) _ (a := tt) eq_refl).
  - rewrite (outcome_bind (info _) _ (a := tt) eq_refl).
    rewrite (outcome_bind _ _ (forEach_returns logGroup _ logGroup_returns)).
    now rewrite (outcome_bind (info _) _ (a := tt) eq_refl).
Qed.

Lemma outcome_bind_cases {A B} (m : Action A) (k : A -> Action B) :
  outcomeOf (bind m k) =
  match outcomeOf m with
  | Returns a => outcomeOf (k a)
  | Throws e => Throws e
  end.
Proof. destruct m as [l [a|e]]; simpl; [now destruct (k a) | reflexivity]. Qed.

Lemma log_bind {A B} (m : Action A) (k : A -> Action B) :
  logOf (bind m k) =
  logOf m ++ match outcomeOf m with
             | Returns a => logOf (k a)
             | Throws _ => []
             end.
Proof.
  destruct m as [l [a|e]]; simpl; [now destruct (k a) | now rewrite app_nil_r].
Qed.

Lemma log_tryCatch_returns {A} (m : Action A) (h : JSError -> Action A) (a : A) :
  outcomeOf m = Returns a -> logOf (tryCatch m h) = logOf m.
Proof. destruct m as [l [x|e]]; simpl; [reflexivity | discriminate]. Qed.

Lemma run_report (w : World) :
  snd (run w) =
  match outcomeOf (getProjects w) with
  | Returns result => SetOutput (entries result)
  | Throws e => SetFailed (crossMark ++ js " Action failed: " ++ errMessage e)
  end.
Proof. unfold run. destruct (getProjects w) as [l [r|e]]; reflexivity. Qed.

Lemma getProjects_rethrows (w : World) (e : JSError) :
  outcomeOf (getTurboPackages w) = Throws e ->
  outcomeOf (getProjects w) =
  Throws (newError (js "Analysis failed: " ++ errMessage e)).
Proof.
  intros H. unfold getProjects.
  rewrite outcome_tryCatch_rethrow_with.
  now rewrite (outcome_bind_throws _ _ H).
Qed.

(** X16: an error of [getTurboPackages] ends the run: [getProjects]
    throws it with "Analysis failed: " before its message and [run]
    reports that message as the failure of the action. *)
Theorem listing_failure_reaches_run (w : World) (e : JSError) :
  outcomeOf (getTurboPackages w) = Throws e ->
  outcomeOf (getProjects w) =
    Throws (newError (js "Analysis failed: " ++ errMessage e))
  /\ snd (run w) = failureReport e.
Proof.
  intros H. pose proof (getProjects_rethrows _ H) as Hp.
  split; [exact Hp |]. rewrite run_report, Hp. reflexivity.
Qed.

Lemma listing_failure_reaches_run_witness :
  outcomeOf (getProjects Cases.noRoot) =
    Throws (newError (js "Analysis failed: " ++ errMessage notInstalled))
  /\ snd (run Cases.noRoot) = failureReport notInstalled.
Proof.
  apply listing_failure_reaches_run. vm_compute; reflexivity.
Defined.

Lemma forEachPackage_app (w : World) (pre post : list WorkspacePackage)
    (o : TurboProjects) :
  outcomeOf (forEachPackage w o (pre ++ post)) =
  match outcomeOf (forEachPackage w o pre) with
  | Returns o' => outcomeOf (forEachPackage w o' post)
  | Throws e => Throws e
  end.
Proof.
  revert o; induction pre as [|p pre IH]; intros o; [reflexivity |].
  cbn [app forEachPackage]. rewrite !outcome_bind_cases.
  destruct (outcomeOf (visit w o p)); [apply IH | reflexivity].
Qed.

Lemma visit_unreadable (w : World) (o : TurboProjects) (pkg : WorkspacePackage) :
  packageJsonAt w (resolvePackageJson w (itemPath pkg)) = Unreadable ->
  outcomeOf (visit w o pkg) =
  Throws (newError (js "Failed to retrieve package info: "
                      ++ resolvePackageJson w (itemPath pkg))).
Proof.
  intros H. unfold visit. rewrite outcome_bind_cases, getPackageInfo_outcome, H.
  reflexivity.
Qed.

(** X17: a listed package.json that does not parse ends the run at that
    package: [getProjects] throws "Analysis failed: Failed to retrieve
    package info: <resolved path>", whatever is listed after it, when the
    packages before it were grouped. *)
Theorem unreadable_manifest_fails (w : World) (pre post : list WorkspacePackage)
    (pkg : WorkspacePackage) :
  outcomeOf (getTurboPackages w) = Returns (pre ++ pkg :: post) ->
  (forall p, In p pre ->
     packageJsonAt w (resolvePackageJson w (itemPath p)) <> Unreadable) ->
  (forall l i, In (l, i) (placements w pre) -> isPrototypeKey l = false) ->
  packageJsonAt w (resolvePackageJson w (itemPath pkg)) = Unreadable ->
  outcomeOf (getProjects w) = Throws (manifestFailure w (itemPath pkg))
  /\ snd (run w) =
       SetFailed (crossMark ++ js " Action failed: "
                    ++ errMessage (manifestFailure w (itemPath pkg))).
Proof.
  intros Hp Hpre Hls Hbad.
  assert (H : outcomeOf (getProjects w) = Throws (manifestFailure w (itemPath pkg))).
  { unfold getProjects. rewrite outcome_tryCatch_rethrow_with.
    rewrite (outcome_bind _ _ Hp).
    rewrite (outcome_bind (info _) _ (a := tt) eq_refl).
    rewrite outcome_bind_cases, forEachPackage_app.
    rewrite (forEachPackage_plain w pre [] Hpre Hls).
    cbn [forEachPackage]. rewrite outcome_bind_cases.
    rewrite (visit_unreadable w _ pkg Hbad). reflexivity. }
  split; [exact H |]. now rewrite run_report, H.
Qed.

Lemma unreadable_manifest_fails_witness :
  outcomeOf (getProjects Cases.brokenManifest) =
    Throws (manifestFailure Cases.brokenManifest (js "./b"))
  /\ snd (run Cases.brokenManifest) =
       SetFailed (crossMark ++ js " Action failed: "
                    ++ errMessage (manifestFailure Cases.brokenManifest (js "./b"))).
Proof.
  apply (@unreadable_manifest_fails Cases.brokenManifest
           [Examples.item "@x/a" "./a"] [] (Examples.item "@x/b" "./b")).
  - vm_compute; reflexivity.
  - intros p [<- | []]. vm_compute; discriminate.
  - intros l i H. vm_compute in H. destruct H as [H | []].
    injection H as <- _. vm_compute; reflexivity.
  - vm_compute; reflexivity.
Defined.

(** ** main.ts: what the log says *)

Lemma visit_log_missing (w : World) (o : TurboProjects) (pkg : WorkspacePackage) :
  packageJsonAt w (resolvePackageJson w (itemPath pkg)) = Missing ->
  visit w o pkg = ([missingWarning (itemPath pkg)], Returns o).
Proof.
  intros H. unfold visit, getPackageInfo. rewrite H. reflexivity.
Qed.

Lemma forEachPackage_log_missing (w : World) (packages : list WorkspacePackage)
    (o o' : TurboProjects) (pkg : WorkspacePackage) :
  In pkg packages ->
  packageJsonAt w (resolvePackageJson w (itemPath pkg)) = Missing ->
  outcomeOf (forEachPackage w o packages) = Returns o' ->
  In (missingWarning (itemPath pkg)) (logOf (forEachPackage w o packages)).
Proof.
  revert o; induction packages as [|p rest IH]; intros o Hin Hm Hr; [contradiction |].
  cbn [forEachPackage] in *. rewrite log_bind. apply in_app_iff.
  rewrite outcome_bind_cases in Hr.
  destruct Hin as [-> | Hin].
  - left. rewrite (visit_log_missing w o pkg Hm). now left.
  - right. destruct (outcomeOf (visit w o p)) as [o1|e]; [| discriminate].
    now apply IH.
Qed.

Lemma getProjects_log (w : World) (packages : list WorkspacePackage)
    (result : TurboProjects) (entry : LogEntry) :
  outcomeOf (getTurboPackages w) = Returns packages ->
  outcomeOf (forEachPackage w [] packages) = Returns result ->
  In entry (logOf (forEachPackage w [] packages)) ->
  In entry (logOf (getProjects w)).
Proof.
  intros Hp Hr Hin. unfold getProjects.
  assert (Hbody : exists r,
             outcomeOf
               (packages <- getTurboPackages w ;;
                info (foundMessage packages) ;;
                result <- forEachPackage w [] packages ;;
                (if Nat.eqb (List.length (keys result)) 0 then
                   info (warningSign ++ js " Nothing to build") ;; ret result
                 else
                   info (js " ") ;;
                   forEach logGroup (entries result) ;;
                   info (rocket ++ js " Done: " ++ ofNat (List.length (keys result))
                           ++ js " build target(s), " ++ ofNat (projectCount result)
                           ++ js " project(s)") ;;
                   ret result)) = Returns r).
  { exists result. rewrite (outcome_bind _ _ Hp).
    rewrite (outcome_bind (info _) _ (a := tt) eq_refl).
    rewrite (outcome_bind _ _ Hr).
    destruct (Nat.eqb _ 0).
    - now rewrite (outcome_bind (info _) _ (a := tt) eq_refl).
    - rewrite (outcome_bind (info _) _ (a := tt) eq_refl).
      rewrite (outcome_bind _ _ (forEach_returns logGroup _ logGroup_returns)).
      now rewrite (outcome_bind (info _) _ (a := tt) eq_refl). }
  destruct Hbody as [r Hbody].
  rewrite (log_tryCatch_returns _ _ Hbody).
  rewrite log_bind, Hp. apply in_app_iff. right.
  rewrite log_bind. cbn [outcomeOf info snd]. apply in_app_iff. right.
  rewrite log_bind. apply in_app_iff. now left.
Qed.

(** X18: in a run that returns a mapping, every listed package without a
    package.json is reported by a warning that names its path. *)
Theorem missing_manifest_is_logged (w : World) (packages : list WorkspacePackage)
    (result : TurboProjects) (pkg : WorkspacePackage) :
  outcomeOf (getTurboPackages w) = Returns packages ->
  outcomeOf (getProjects w) = Returns result ->
  In pkg packages ->
  packageJsonAt w (resolvePackageJson w (itemPath pkg)) = Missing ->
  In (missingWarning (itemPath pkg)) (logOf (getProjects w)).
Proof.
  intros Hp H Hin Hm.
  assert (Hr : exists r, outcomeOf (forEachPackage w [] packages) = Returns r).
  { unfold getProjects in H. apply outcome_tryCatch_inv in H.
    rewrite (outcome_bind _ _ Hp) in H.
    apply outcome_bind_inv in H as ([] & _ & H).
    apply outcome_bind_inv in H as (r & Hr & _). eauto. }
  destruct Hr as [r Hr].
  eapply getProjects_log; eauto.
  eapply forEachPackage_log_missing; eauto.
Qed.

Lemma missing_manifest_is_logged_witness :
  In (missingWarning (js "./c")) (logOf (getProjects Examples.dockerOnly)).
Proof.
  apply (@missing_manifest_is_logged Examples.dockerOnly
           Examples.dockerOnlyPackages Examples.dockerOnlyResult
           (Examples.item "@x/c" "./c"));
    try (vm_compute; reflexivity).
  simpl; auto.
Defined.

Lemma unlabelled_placements (w : World) (packages : list WorkspacePackage) :
  (forall pkg, In pkg packages -> unlabelled w pkg) ->
  placements w packages = [].
Proof.
  intros H. unfold placements. induction packages as [|p rest IH]; [reflexivity |].
  cbn [flat_map]. rewrite IH by (intros; apply H; now right).
  specialize (H p (or_introl eq_refl)).
  unfold unlabelled in H. unfold placementsOf, infoAt.
  destruct (packageJsonAt w (resolvePackageJson w (itemPath p))); try reflexivity.
  cbn [build infoOf]. now rewrite H.
Qed.

(** X19: when no listed package names a label (no package.json, no
    [build], an empty string or an empty array), the run is no error: the
    mapping is empty, the log says "Nothing to build" and the action's
    output is the empty mapping. *)
Theorem nothing_to_build (w : World) (packages : list WorkspacePackage) :
  outcomeOf (getTurboPackages w) = Returns packages ->
  (forall pkg, In pkg packages -> unlabelled w pkg) ->
  outcomeOf (getProjects w) = Returns []
  /\ In nothingToBuild (logOf (getProjects w))
  /\ snd (run w) = SetOutput [].
Proof.
  intros Hp Hun.
  pose proof (unlabelled_placements w packages Hun) as Hpl.
  assert (Hfiles : forall pkg, In pkg packages ->
            packageJsonAt w (resolvePackageJson w (itemPath pkg)) <> Unreadable).
  { intros pkg Hin E. specialize (Hun pkg Hin). unfold unlabelled in Hun.
    now rewrite E in Hun. }
  assert (Hls : forall l i, In (l, i) (placements w packages) ->
                            isPrototypeKey l = false)
    by (rewrite Hpl; contradiction).
  pose proof (forEachPackage_plain w packages [] Hfiles Hls) as Hloop.
  pose proof (getProjects_plain w Hp Hfiles Hls) as H.
  rewrite Hpl in Hloop, H. cbn [placeAll fold_left] in Hloop, H.
  split; [exact H |]. split; [| now rewrite run_report, H].
  unfold getProjects.
  assert (Hbody : outcomeOf
            (packages <- getTurboPackages w ;;
             info (foundMessage packages) ;;
             result <- forEachPackage w [] packages ;;
             (if Nat.eqb (List.length (keys result)) 0 then
                info (warningSign ++ js " Nothing to build") ;; ret result
              else
                info (js " ") ;;
                forEach logGroup (entries result) ;;
                info (rocket ++ js " Done: " ++ ofNat (List.length (keys result))
                        ++ js " build target(s), " ++ ofNat (projectCount result)
                        ++ js " project(s)") ;;
                ret result)) = Returns []).
  { rewrite (outcome_bind _ _ Hp).
    rewrite (outcome_bind (info _) _ (a := tt) eq_refl).
    rewrite (outcome_bind _ _ Hloop). reflexivity. }
  rewrite (log_tryCatch_returns _ _ Hbody).
  rewrite log_bind, Hp. apply in_app_iff. right.
  rewrite log_bind. cbn [outcomeOf info snd]. apply in_app_iff. right.
  rewrite log_bind, Hloop. apply in_app_iff. right.
  cbn. now left.
Qed.

Lemma nothing_to_build_witness :
  outcomeOf (getProjects Cases.nothing) = Returns []
  /\ In nothingToBuild (logOf (getProjects Cases.nothing))
  /\ snd (run Cases.nothing) = SetOutput [].
Proof.
  apply (@nothing_to_build Cases.nothing
           [Examples.item "@x/b" "./b"; Examples.item "@x/c" "./c"]).
  - vm_compute; reflexivity.
  - intros pkg [<- | [<- | []]]; vm_compute; auto.
Defined.

(** ** main.ts: the enumerated mapping against the object *)

Lemma insertByIndex_perm (x : N * JSString) (l : list (N * JSString)) :
  Permutation (insertByIndex x l) (x :: l).
Proof.
  induction l as [|y l IH]; simpl; [reflexivity |].
  destruct (fst x <=? fst y)%N; [reflexivity |].
  rewrite IH. apply perm_swap.
Qed.

Lemma sortByIndex_perm (l : list (N * JSString)) : Permutation (sortByIndex l) l.
Proof.
  induction l as [|x l IH]; simpl; [reflexivity |].
  rewrite insertByIndex_perm. now constructor.
Qed.

Lemma indexed_filter (ks : list JSString) :
  map snd (indexed ks) = filter isArrayIndex ks.
Proof.
  unfold indexed, isArrayIndex. induction ks as [|k ks IH]; [reflexivity |].
  cbn [flat_map filter]. destruct (arrayIndex k); cbn [app map snd]; now rewrite IH.
Qed.

Lemma filter_split_perm {A} (p : A -> bool) (l : list A) :
  Permutation (filter p l ++ filter (fun x => negb (p x)) l) l.
Proof.
  induction l as [|x l IH]; [reflexivity |].
  cbn [filter]. destruct (p x); cbn [negb app].
  - now constructor.
  - rewrite <- Permutation_middle. now constructor.
Qed.

Lemma keyOrder_perm (ks : list JSString) : Permutation (keyOrder ks) ks.
Proof.
  unfold keyOrder.
  rewrite (Permutation_map snd (sortByIndex_perm (indexed ks))), indexed_filter.
  apply filter_split_perm.
Qed.

Lemma own_entries (o : TurboProjects) :
  NoDup (map fst o) -> map (fun k => (k, groupOf o k)) (map fst o) = o.
Proof.
  intros Hnd. rewrite map_map. rewrite <- (map_id o) at 2.
  apply map_ext_in. intros [k v] Hin. cbn [fst]. unfold groupOf.
  now rewrite (in_getOwn _ _ _ Hnd Hin).
Qed.

Lemma entries_perm (o : TurboProjects) :
  NoDup (map fst o) -> Permutation (entries o) o.
Proof.
  intros Hnd. unfold entries, keys.
  rewrite (Permutation_map _ (keyOrder_perm (map fst o))).
  now rewrite own_entries.
Qed.

(** X20: what the action puts out is the returned object, neither more
    nor less: the enumerated entries are a rearrangement of the object's
    own groups, and no label is enumerated twice. *)
Theorem output_is_the_mapping (w : World) (result : TurboProjects) :
  outcomeOf (getProjects w) = Returns result ->
  Permutation (entries result) result
  /\ NoDup (keys result)
  /\ snd (run w) = SetOutput (entries result).
Proof.
  intros H. pose proof H as Hret.
  apply getProjects_returns in H as (packages & _ & ->).
  pose proof (result_keys_NoDup w packages) as Hnd.
  split; [now apply entries_perm |]. split.
  - unfold keys. eapply Permutation_NoDup; [| exact Hnd].
    symmetry. apply keyOrder_perm.
  - now rewrite run_report, Hret.
Qed.

Lemma output_is_the_mapping_witness :
  Permutation (entries Examples.numberedResult) Examples.numberedResult
  /\ NoDup (keys Examples.numberedResult)
  /\ snd (run Examples.numbered) = SetOutput (entries Examples.numberedResult).
Proof.
  apply output_is_the_mapping. vm_compute; reflexivity.
Defined.

Lemma carried_placements (w : World) (packages : list WorkspacePackage)
    (label : JSString) :
  carried w packages label <-> In label (map fst (placements w packages)).
Proof.
  unfold carried. split.
  - intros (pkg & doc & Hin & Hdoc & Hl).
    change label with (fst (label, infoOf (itemPath pkg) doc)).
    apply in_map. eapply placed; eauto.
  - intros H. apply in_map_iff in H as ((l, i) & E & H). simpl in E; subst l.
    apply placements_origin in H as (pkg & doc & H1 & H2 & _ & H4).
    exists pkg, doc. auto.
Qed.

(** X21: a label is a key of the returned mapping exactly when the
    [build] of some listed package.json names it. *)
Theorem keys_are_the_labels (w : World) (packages : list WorkspacePackage)
    (result : TurboProjects) (label : JSString) :
  outcomeOf (getTurboPackages w) = Returns packages ->
  outcomeOf (getProjects w) = Returns result ->
  (In label (keys result) <-> carried w packages label).
Proof.
  intros Hp H. destruct (getProjects_groups _ Hp H) as [_ Hk].
  unfold keys. rewrite keyOrder_in, Hk. unfold encounterOrder.
  rewrite firstSeen_in. symmetry. apply carried_placements.
Qed.

Lemma keys_are_the_labels_witness :
  In (js "docker") (keys Examples.fanOutResult) <->
  carried Examples.fanOut Examples.fanOutPackages (js "docker").
Proof.
  apply keys_are_the_labels; vm_compute; reflexivity.
Defined.

Lemma sum_fold_left {A} (f : A -> nat) (l : list A) (a : nat) :
  fold_left (fun acc x => acc + f x) l a =
  a + fold_right (fun x n => f x + n) 0 l.
Proof.
  revert a; induction l as [|x l IH]; intros a; simpl; [lia |].
  rewrite IH. lia.
Qed.

Lemma sum_perm {A} (f : A -> nat) (l l' : list A) :
  Permutation l l' ->
  fold_right (fun x n => f x + n) 0 l = fold_right (fun x n => f x + n) 0 l'.
Proof. induction 1; simpl; lia. Qed.

Lemma ownCount_setOwn (l : JSString) (v : list ProjectInfo) (o : TurboProjects) :
  ownCount (setOwn l v o) + List.length (groupOf o l) =
  ownCount o + List.length v.
Proof.
  unfold ownCount, groupOf. induction o as [|[k v'] o IH]; simpl; [lia |].
  destruct (str_eqb k l); simpl; lia.
Qed.

Lemma ownCount_placeAll (ps : list (JSString * ProjectInfo)) (o : TurboProjects) :
  ownCount (placeAll o ps) = ownCount o + List.length ps.
Proof.
  revert o; induction ps as [|[l i] ps IH]; intros o; simpl; [lia |].
  fold (placeAll (place o l i) ps). rewrite IH.
  pose proof (ownCount_setOwn l (groupOf o l ++ [i]) o) as H.
  rewrite length_app in H. simpl in H. unfold place. lia.
Qed.

(** X22: the number of projects in the "Done" line is the number of
    (package, label) pairs: every listed package with a package.json is
    counted once for each label of its [build]. *)
Theorem project_count_is_placements (w : World) (packages : list WorkspacePackage)
    (result : TurboProjects) :
  outcomeOf (getTurboPackages w) = Returns packages ->
  outcomeOf (getProjects w) = Returns result ->
  projectCount result = List.length (placements w packages).
Proof.
  intros Hp H. apply getProjects_returns in H as (packages' & Hp' & ->).
  assert (packages' = packages) by congruence. subst packages'.
  unfold projectCount.
  rewrite (sum_fold_left (fun p => List.length (snd p))). cbn [Nat.add].
  rewrite (sum_perm _ (entries_perm _ (result_keys_NoDup w packages))).
  fold (ownCount (placeAll [] (placements w packages))).
  now rewrite ownCount_placeAll.
Qed.

Lemma project_count_is_placements_witness :
  projectCount Examples.twiceResult =
  List.length (placements Examples.twice Examples.twicePackages).
Proof.
  apply project_count_is_placements; vm_compute; reflexivity.
Defined.

(** ** turbo.ts: more on the cache warm-up *)

(** X23: the warm-up warns only about a failure: when the restore, the
    pre-download and the save all return, its log holds no warning. *)
Theorem no_warning_without_failure (w : World) (turboVersion : JSString) :
  (exists hit, restoreCache w (cacheKeyOf w turboVersion) = Returns hit) ->
  (exists out, preDownload w turboVersion = Returns out) ->
  (exists u, saveCache w (cacheKeyOf w turboVersion) = Returns u) ->
  existsb isWarning (logOf (ensureTurboCache w turboVersion)) = false.
Proof.
  unfold preDownload, ensureTurboCache, logOf.
  intros [hit Hr] [out Hd] [u Hs]. rewrite Hr, Hd.
  destruct hit as [[|c k]|];
    cbn [bind tryCatch info warning ret lift throw fst snd app];
    try reflexivity;
    (destruct (exitCode out =? 0)%N;
     cbn [bind tryCatch info warning ret lift throw fst snd app];
     rewrite ?Hs; reflexivity).
Qed.

Lemma no_warning_without_failure_witness :
  existsb isWarning (logOf (ensureTurboCache Examples.dockerOnly (js "2.5.8")))
  = false.
Proof.
  apply no_warning_without_failure; eexists; vm_compute; reflexivity.
Defined.

(** X24: on one host, two versions never share a cache key. *)
Theorem cache_key_separates_versions (w : World) (v v' : JSString) :
  cacheKeyOf w v = cacheKeyOf w v' -> v = v'.
Proof.
  unfold cacheKeyOf. intros H.
  apply app_inv_head in H. now apply app_inv_tail in H.
Qed.

Lemma cache_key_separates_versions_witness : js "2.5.8" = js "2.5.8".
Proof.
  exact (@cache_key_separates_versions Examples.dockerOnly (js "2.5.8")
           (js "2.5.8") eq_refl).
Defined.

(** ** main.ts: more on the returned mapping *)

(** X25: a listed package is in exactly the groups its [build] names: its
    record is in the group of a label if and only if the label is the
    non-empty string, or an element of the array, that [build] holds. *)
Theorem grouped_under_own_labels (w : World) (packages : list WorkspacePackage)
    (result : TurboProjects) (pkg : WorkspacePackage) (doc : PackageJson)
    (label : JSString) :
  outcomeOf (getTurboPackages w) = Returns packages ->
  outcomeOf (getProjects w) = Returns result ->
  In pkg packages ->
  packageJsonAt w (resolvePackageJson w (itemPath pkg)) = Parsed doc ->
  (In (infoOf (itemPath pkg) doc) (groupOf result label) <->
   In label (labelsOf (pjBuild doc))).
Proof.
  intros Hp H Hin Hdoc. destruct (getProjects_groups _ Hp H) as [Hg _].
  rewrite Hg, carrying_in. split.
  - intros Hpl.
    apply placements_origin in Hpl as (pkg' & doc' & _ & Hdoc' & E & Hl).
    assert (Epath : itemPath pkg = itemPath pkg')
      by (apply (f_equal path) in E; exact E).
    rewrite <- Epath in *. rewrite Hdoc in Hdoc'. injection Hdoc' as <-.
    exact Hl.
  - intros Hl. eapply placed; eauto.
Qed.

Lemma grouped_under_own_labels_witness :
  In (infoOf (js "./lib") Examples.fanOutDoc)
     (groupOf Examples.fanOutResult (js "static")) <->
  In (js "static") (labelsOf (pjBuild Examples.fanOutDoc)).
Proof.
  apply (@grouped_under_own_labels Examples.fanOut Examples.fanOutPackages
           Examples.fanOutResult (Examples.item "@My/Lib!!" "./lib"));
    try (vm_compute; reflexivity).
  simpl; auto.
Defined.

(** X26: every project the action reports has the path of a listed
    package and, with a name, the identifier computed from that name;
    without a name it has no identifier. *)
Theorem reported_projects (w : World) (packages : list WorkspacePackage)
    (result : TurboProjects) (label : JSString) (group : list ProjectInfo)
    (i : ProjectInfo) :
  outcomeOf (getTurboPackages w) = Returns packages ->
  outcomeOf (getProjects w) = Returns result ->
  In (label, group) (entries result) ->
  In i group ->
  In (path i) (map itemPath packages)
  /\ identifier i = option_map identifierOf (name i)
  /\ In label (labelsOf (build i)).
Proof.
  intros Hp H Hin Hi. destruct (getProjects_groups _ Hp H) as [Hg _].
  unfold entries in Hin. apply in_map_iff in Hin as (k & E & _).
  injection E as E1 E2. subst k group.
  rewrite Hg in Hi. apply (proj1 (carrying_in _ _ _)) in Hi.
  apply placements_origin in Hi as (pkg & doc & H1 & _ & -> & H4).
  cbn [path infoOf identifier name build]. repeat split; auto.
  now apply in_map.
Qed.

Lemma reported_projects_witness :
  In (js "./a") (map itemPath Examples.dockerOnlyPackages)
  /\ Some (js "x-a") = option_map identifierOf (Some (js "@x/a"))
  /\ In (js "docker") (labelsOf (Some (Single (js "docker")))).
Proof.
  exact (@reported_projects Examples.dockerOnly Examples.dockerOnlyPackages
           Examples.dockerOnlyResult (js "docker")
           [infoOf (js "./a") (Examples.doc "@x/a" (Some (Single (js "docker"))))]
           (infoOf (js "./a") (Examples.doc "@x/a" (Some (Single (js "docker")))))
           ltac:(vm_compute; reflexivity) ltac:(vm_compute; reflexivity)
           ltac:(vm_compute; auto) ltac:(simpl; auto)).
Defined.

(** ** main.ts: exactly when a mapping is returned *)







(** ** main.ts: labels that name members of [Object.prototype] *)

(** C6 at its failing input: the one listed package has
    [build: ["constructor", "b"]].  [result["constructor"]] reads the
    inherited constructor, which is truthy and has no [push]: the first
    push throws, [getProjects] returns no mapping and [run] reports the
    failure, so the package is in neither group. *)
Theorem fan_out_fails_on_inherited_label :
  outcomeOf (getTurboPackages Cases.inheritedFanOut)
    = Returns [Examples.item "@x/a" "./a"]
  /\ outcomeOf (getProjects Cases.inheritedFanOut)
       = Throws (newError (js "Analysis failed: "
                             ++ js "result[build].push is not a function"))
  /\ snd (run Cases.inheritedFanOut)
       = SetFailed (crossMark ++ js " Action failed: Analysis failed: "
                      ++ js "result[build].push is not a function").
Proof.
  split; [| split]; vm_compute; reflexivity.
Qed.

(** C10 at its failing input: the one listed package has
    [build: ["toString", "toString"]].  The first push reads the inherited
    [toString] and throws; nothing is appended for either occurrence and
    [run] reports the failure. *)
Theorem repeated_inherited_label_fails :
  outcomeOf (getTurboPackages Cases.inheritedTwice)
    = Returns [Examples.item "@x/a" "./a"]
  /\ outcomeOf (getProjects Cases.inheritedTwice)
       = Throws (newError (js "Analysis failed: "
                             ++ js "result[build].push is not a function"))
  /\ snd (run Cases.inheritedTwice)
       = SetFailed (crossMark ++ js " Action failed: Analysis failed: "
                      ++ js "result[build].push is not a function").
Proof.
  split; [| split]; vm_compute; reflexivity.
Qed.
